(** * SignalRConnector: the realtime connector of the Lidarr frontend

    A shallow embedding of [frontend/src/Components/SignalRConnector.js].
    The component instance ([this]), the browser timers and the sequence of
    observable effects (console lines, actions sent to the store, calls on the
    hub connection) form one explicit state; every method of the class is a
    computation over that state which either completes or raises a
    [TypeError].  What the component reads but does not own
    ([window.Lidarr], the clock, [this.props]) is passed as an environment. *)

From Stdlib Require Import ZArith List String Ascii Bool Lia.
From Stdlib Require DecimalString.
Import ListNotations.
Local Open Scope Z_scope.

(** ** JavaScript values carried by hub messages *)

(** Messages arrive deserialised from JSON.  No handler computes with a
    number, so integers stand for the numbers. *)
#[warnings="-register-all"]
Inductive JSValue : Type :=
| JUndefined
| JNull
| JBool (b : bool)
| JNum (n : Z)
| JStr (s : string)
| JArr (items : list JSValue)
| JObj (fields : list (string * JSValue)).

(** An object is a list of bindings, the first binding of a key being the
    one that is read. *)
Fixpoint field (k : string) (fs : list (string * JSValue)) : JSValue :=
  match fs with
  | [] => JUndefined
  | (k', v) :: rest => if String.eqb k' k then v else field k rest
  end.

Definition nullish (v : JSValue) : bool :=
  match v with
  | JUndefined | JNull => true
  | _ => false
  end.

(** [v.k] for the keys this file reads ([name], [body], [action],
    [resource], [status], [id], [Version], [version]): a [TypeError] ([None])
    on [undefined] and [null], the bound value on an object, and [undefined]
    on every other value, none of whose prototypes carries one of these
    keys. *)
Definition getprop (k : string) (v : JSValue) : option JSValue :=
  match v with
  | JUndefined | JNull => None
  | JObj fs => Some (field k fs)
  | _ => Some JUndefined
  end.

(** [v === 'literal'] *)
Definition strict_eq_str (v : JSValue) (lit : string) : bool :=
  match v with
  | JStr s => String.eqb s lit
  | _ => false
  end.

(** [s.replace(pat, rep)] with a string pattern: the first occurrence only.
    The single call site passes [''] as replacement, so the [$]-patterns of
    the replacement string are not interpreted. *)
Fixpoint replace (pat rep s : string) : string :=
  if String.prefix pat s
  then String.append rep (String.substring (String.length pat)
                                           (String.length s - String.length pat) s)
  else match s with
       | EmptyString => EmptyString
       | String c s' => String c (replace pat rep s')
       end.

(** ** What the component reads from its surroundings *)

(** [this.props], filled by [createMapStateToProps] from the store. *)
Record Props : Type := mkProps {
  isReconnecting : bool;
  isDisconnected : bool;
  isQueuePopulated : bool
}.

(** A listener runs to completion at one reading of the clock. *)
Record Env : Type := mkEnv {
  unloading : bool;   (* window.Lidarr.unloading *)
  now : Z;            (* new Date().getTime(), milliseconds *)
  props : Props;      (* this.props *)
  urlBase : string    (* window.Lidarr.urlBase *)
}.

(** ** Store actions *)

(** The argument of [setAppValue]: each flag is either absent or set. *)
Record AppAttrs : Type := mkAttrs {
  attr_isConnected : option bool;
  attr_isReconnecting : option bool;
  attr_isDisconnected : option bool;
  attr_isRestarting : option bool
}.

(** Modelled from the spec: the action creators of [Store/Actions/*] are not
    part of this file; the spec names them as collaborators whose actions the
    component dispatches to the state store.  Each creator only builds the
    action named after it from its argument; an action reaches the store when
    one of the [dispatch*] props bound by [mapDispatchToProps] sends it.  The
    payload of [updateItem] keeps the object literal as written: the listed
    properties followed by the spread value. *)
Inductive Action : Type :=
| FetchCommands
| UpdateCommand (resource : JSValue)
| FinishCommand (resource : JSValue)
| SetAppValue (attrs : AppAttrs)
| SetVersion (version : JSValue)
| Update (section : string) (data : JSValue)
| UpdateItem (literal : list (string * JSValue)) (spread : JSValue)
| RemoveItem (section : string) (id : JSValue)
| FetchArtist
| FetchHealth
| FetchQueue
| FetchQueueDetails
| FetchRootFolders
| FetchTags
| FetchTagDetails.

Definition fetchCommands : Action := FetchCommands.
Definition updateCommand : JSValue -> Action := UpdateCommand.
Definition finishCommand : JSValue -> Action := FinishCommand.
Definition setAppValue : AppAttrs -> Action := SetAppValue.
Definition setVersion : JSValue -> Action := SetVersion.

(** ** Observable effects, in the order they happen *)

Inductive Level : Type := LLog | LDebug | LError.

Inductive Effect : Type :=
| Console (level : Level) (text : string) (args : list JSValue)
| Dispatch (a : Action)                  (* an action sent to the store *)
| RepopulatePage (reason : option string)
| HubOnClose                             (* connection.onclose(this.onClose) *)
| HubOn (method : string)                (* connection.on(method, callback) *)
| HubStart                               (* connection.start() *)
| HubStop                                (* connection.stop() *)
| SetTimeout (id : positive) (delay : Z)
| ClearTimeout (id : positive).

(** ** The state *)

(** The fields of [this], then the browser's pending timers (identifier and
    delay in milliseconds; identifiers are positive integers) and the effects
    so far. *)
Record State : Type := mkState {
  connection : option string;        (* null, or the hub built for a url *)
  retryInterval : Z;
  retryTimeoutId : option positive;
  disconnectedTime : option Z;
  timers : list (positive * Z);
  nextTimer : positive;
  effects : list Effect
}.

Definition set_connection (c : option string) (st : State) : State :=
  mkState c (retryInterval st) (retryTimeoutId st) (disconnectedTime st)
          (timers st) (nextTimer st) (effects st).

Definition set_retryInterval (r : Z) (st : State) : State :=
  mkState (connection st) r (retryTimeoutId st) (disconnectedTime st)
          (timers st) (nextTimer st) (effects st).

Definition set_retryTimeoutId (i : option positive) (st : State) : State :=
  mkState (connection st) (retryInterval st) i (disconnectedTime st)
          (timers st) (nextTimer st) (effects st).

Definition set_disconnectedTime (d : option Z) (st : State) : State :=
  mkState (connection st) (retryInterval st) (retryTimeoutId st) d
          (timers st) (nextTimer st) (effects st).

Definition add_effect (e : Effect) (st : State) : State :=
  mkState (connection st) (retryInterval st) (retryTimeoutId st)
          (disconnectedTime st) (timers st) (nextTimer st) (effects st ++ [e]).

(** The constructor. *)
Definition constructed : State :=
  {| connection := None;
     retryInterval := 1;
     retryTimeoutId := None;
     disconnectedTime := None;
     timers := [];
     nextTimer := 1%positive;
     effects := [] |}.

(** ** Computations: state passing with exceptions *)

(** A method either completes with a value or raises; in both cases the
    state reached so far stays. *)
Inductive Completion (A : Type) : Type :=
| Normal (a : A) (st : State)
| Throw (st : State).
Arguments Normal {A} a st.
Arguments Throw {A} st.

Definition M (A : Type) : Type := State -> Completion A.

Definition state_of {A} (c : Completion A) : State :=
  match c with
  | Normal _ st => st
  | Throw st => st
  end.

Definition ret {A} (a : A) : M A := fun st => Normal a st.

Definition bind {A B} (m : M A) (k : A -> M B) : M B :=
  fun st =>
    match m st with
    | Normal a st' => k a st'
    | Throw st' => Throw st'
    end.

Definition throwTypeError {A} : M A := fun st => Throw st.

Declare Scope js_scope.
Delimit Scope js_scope with js.
Notation "x <- m ;; k" := (bind m (fun x => k))
  (at level 61, m at next level, right associativity) : js_scope.
Notation "m ;; k" := (bind m (fun _ => k))
  (at level 61, right associativity) : js_scope.
Local Open Scope js_scope.

Definition get : M State := fun st => Normal st st.
Definition modify (f : State -> State) : M unit := fun st => Normal tt (f st).
Definition emit (e : Effect) : M unit := modify (add_effect e).
Definition dispatch (a : Action) : M unit := emit (Dispatch a).
Definition repopulatePage (reason : option string) : M unit :=
  emit (RepopulatePage reason).

(** [v.k] inside a method. *)
Definition prop (k : string) (v : JSValue) : M JSValue :=
  match getprop k v with
  | Some x => ret x
  | None => throwTypeError
  end.

(** [setTimeout(callback, delay)]: every timer of this component runs the
    same callback, so a pending timer is its identifier and its delay. *)
Definition setTimeout (delay : Z) : M positive :=
  fun st =>
    let id := nextTimer st in
    Normal id
      (mkState (connection st) (retryInterval st) (retryTimeoutId st)
               (disconnectedTime st) (timers st ++ [(id, delay)])
               (Pos.succ id) (effects st ++ [SetTimeout id delay])).

Definition cancel (id : positive) (ts : list (positive * Z)) : list (positive * Z) :=
  filter (fun t => negb (Pos.eqb (fst t) id)) ts.

Definition clearTimeout (id : positive) : M unit :=
  fun st =>
    Normal tt
      (mkState (connection st) (retryInterval st) (retryTimeoutId st)
               (disconnectedTime st) (cancel id (timers st))
               (nextTimer st) (effects st ++ [ClearTimeout id])).

(** ** Module-level functions *)

(** [!disconnectedTime]: [null] and [0] are the falsy values the field can
    hold. *)
Definition falsy_time (d : option Z) : bool :=
  match d with
  | None => true
  | Some t => Z.eqb t 0
  end.

(** [Math.floor(new Date().getTime() / 1000)] *)
Definition seconds (ms : Z) : Z := ms / 1000.

(** A number where the field is used in arithmetic: [null] counts as [0]. *)
Definition time_value (d : option Z) : Z :=
  match d with
  | None => 0
  | Some t => t
  end.

Definition isAppDisconnected (ms : Z) (disconnectedTime : option Z) : bool :=
  if falsy_time disconnectedTime then false
  else Z.gtb (seconds ms - time_value disconnectedTime) 180.

(** An ASCII letter in upper case. *)
Definition upper (c : ascii) : ascii :=
  let n := nat_of_ascii c in
  if (Nat.leb 97 n && Nat.leb n 122)%bool then ascii_of_nat (n - 32) else c.

Definition upperFirst (s : string) : string :=
  match s with
  | EmptyString => EmptyString
  | String c rest => String (upper c) rest
  end.

(** Modelled from the spec: [Utilities/String/titleCase] is not part of this
    file; the spec describes its use here as "uppercase-first the message
    name".  The model uppercases the first letter of a string and is not
    defined ([None]) on a value that is not a string. *)
Definition titleCase_spec (name : JSValue) : option string :=
  match name with
  | JStr s => Some (upperFirst s)
  | _ => None
  end.

(** The instance properties whose name starts with [handle]; every key that
    [handleMessage] looks up on [this] starts with [handle], and neither the
    other fields of the instance nor its prototypes have such a name. *)
Inductive Method : Type :=
| HandleMessage
| HandleCalendar
| HandleCommand
| HandleAlbum
| HandleTrack
| HandleTrackfile
| HandleHealth
| HandleArtist
| HandleQueue
| HandleQueueDetails
| HandleQueueStatus
| HandleVersion
| HandleWantedCutoff
| HandleWantedMissing
| HandleSystemTask
| HandleRootfolder
| HandleTag.

Definition method_table : list (string * Method) :=
  [ ("handleMessage", HandleMessage);
    ("handleCalendar", HandleCalendar);
    ("handleCommand", HandleCommand);
    ("handleAlbum", HandleAlbum);
    ("handleTrack", HandleTrack);
    ("handleTrackfile", HandleTrackfile);
    ("handleHealth", HandleHealth);
    ("handleArtist", HandleArtist);
    ("handleQueue", HandleQueue);
    ("handleQueueDetails", HandleQueueDetails);
    ("handleQueueStatus", HandleQueueStatus);
    ("handleVersion", HandleVersion);
    ("handleWantedCutoff", HandleWantedCutoff);
    ("handleWantedMissing", HandleWantedMissing);
    ("handleSystemTask", HandleSystemTask);
    ("handleRootfolder", HandleRootfolder);
    ("handleTag", HandleTag) ]%string.

(** [this[key]] for a key built by [getHandlerName]. *)
Fixpoint lookup_method (key : string) (table : list (string * Method)) : option Method :=
  match table with
  | [] => None
  | (k, m) :: rest => if String.eqb k key then Some m else lookup_method key rest
  end.

Definition this_method (key : string) : option Method :=
  lookup_method key method_table.

(** ** The component *)

Section Connector.

(** [Utilities/String/titleCase], taken as it is imported: on a value it
    returns a string or raises. *)
Variable titleCase : JSValue -> option string.

Definition getHandlerName (name : JSValue) : option string :=
  match titleCase name with
  | None => None
  | Some name1 =>
      let name2 := replace "/" "" name1 in
      Some (String.append "handle" name2)
  end.

(** *** Lifecycle *)

Definition startConnection : M unit :=
  st <- get ;;
  match connection st with
  | None => throwTypeError             (* this.connection is null *)
  | Some _ => emit HubStart
  end.

Definition componentDidMount (env : Env) : M unit :=
  emit (Console LLog "[signalR] starting" []) ;;
  modify (set_connection (Some (String.append (urlBase env) "/signalr/messages"))) ;;
  emit HubOnClose ;;
  emit (HubOn "receiveVersion") ;;
  emit (HubOn "receiveMessage") ;;
  startConnection.

Definition componentWillUnmount : M unit :=
  st <- get ;;
  match connection st with
  | None => throwTypeError
  | Some _ => emit HubStop ;; modify (set_connection None)
  end.

(** *** Control *)

(** The callback given to [setTimeout] by [retryConnection]. *)
Definition retryTimeoutCallback : M unit :=
  startConnection ;;
  st <- get ;;
  modify (set_retryInterval (Z.min (retryInterval st + 1) 10)).

(** [attrs] is built and handed to the action creator [setAppValue]; the
    action it returns is not passed to any [dispatch*] prop. *)
Definition retryConnection (env : Env) : M unit :=
  st <- get ;;
  let attrs := mkAttrs None (Some true) None None in
  let attrs :=
    if isAppDisconnected (now env) (disconnectedTime st)
    then mkAttrs (Some false) (attr_isReconnecting attrs) (Some true)
                 (attr_isRestarting attrs)
    else attrs in
  let created := setAppValue attrs in
  id <- setTimeout (retryInterval st * 1000) ;;
  modify (set_retryTimeoutId (Some id)).

(** *** Message handlers *)

Definition handleCalendar (body : JSValue) : M unit :=
  action <- prop "action" body ;;
  if strict_eq_str action "updated" then
    resource <- prop "resource" body ;;
    dispatch (UpdateItem [("section", JStr "calendar"); ("updateOnly", JBool true)]%string
                         resource)
  else ret tt.

Definition handleCommand (body : JSValue) : M unit :=
  action <- prop "action" body ;;
  if strict_eq_str action "sync" then
    dispatch fetchCommands
  else
    resource <- prop "resource" body ;;
    status <- prop "status" resource ;;
    if (strict_eq_str status "completed" || strict_eq_str status "failed")%bool then
      dispatch (finishCommand resource)
    else
      dispatch (updateCommand resource).

Definition handleAlbum (body : JSValue) : M unit :=
  action <- prop "action" body ;;
  if strict_eq_str action "updated" then
    resource <- prop "resource" body ;;
    dispatch (UpdateItem [("section", JStr "albums"); ("updateOnly", JBool true)]%string
                         resource)
  else ret tt.

Definition handleTrack (body : JSValue) : M unit :=
  action <- prop "action" body ;;
  if strict_eq_str action "updated" then
    resource <- prop "resource" body ;;
    dispatch (UpdateItem [("section", JStr "tracks"); ("updateOnly", JBool true)]%string
                         resource)
  else ret tt.

Definition handleTrackfile (body : JSValue) : M unit :=
  let section := "trackFiles"%string in
  action <- prop "action" body ;;
  (if strict_eq_str action "updated" then
     resource <- prop "resource" body ;;
     dispatch (UpdateItem [("section", JStr section)]%string resource)
   else if strict_eq_str action "deleted" then
     resource <- prop "resource" body ;;
     id <- prop "id" resource ;;
     dispatch (RemoveItem section id)
   else ret tt) ;;
  repopulatePage (Some "trackFileUpdated"%string).

Definition handleHealth (body : JSValue) : M unit :=
  dispatch FetchHealth.

Definition handleArtist (body : JSValue) : M unit :=
  action <- prop "action" body ;;
  let section := "artist"%string in
  if strict_eq_str action "updated" then
    resource <- prop "resource" body ;;
    dispatch (UpdateItem [("section", JStr section)]%string resource)
  else if strict_eq_str action "deleted" then
    resource <- prop "resource" body ;;
    id <- prop "id" resource ;;
    dispatch (RemoveItem section id)
  else ret tt.

Definition handleQueue (env : Env) (body : JSValue) : M unit :=
  if isQueuePopulated (props env) then dispatch FetchQueue else ret tt.

Definition handleQueueDetails (body : JSValue) : M unit :=
  dispatch FetchQueueDetails.

Definition handleQueueStatus (body : JSValue) : M unit :=
  resource <- prop "resource" body ;;
  dispatch (Update "queue.status" resource).

Definition handleVersion (body : JSValue) : M unit :=
  version <- prop "Version" body ;;
  dispatch (setVersion version).

Definition handleWantedCutoff (body : JSValue) : M unit :=
  action <- prop "action" body ;;
  if strict_eq_str action "updated" then
    resource <- prop "resource" body ;;
    dispatch (UpdateItem [("section", JStr "cutoffUnmet"); ("updateOnly", JBool true)]%string
                         resource)
  else ret tt.

Definition handleWantedMissing (body : JSValue) : M unit :=
  action <- prop "action" body ;;
  if strict_eq_str action "updated" then
    resource <- prop "resource" body ;;
    dispatch (UpdateItem [("section", JStr "missing"); ("updateOnly", JBool true)]%string
                         resource)
  else ret tt.

Definition handleSystemTask (body : JSValue) : M unit :=
  ret tt.

Definition handleRootfolder (body : JSValue) : M unit :=
  dispatch FetchRootFolders.

Definition handleTag (body : JSValue) : M unit :=
  action <- prop "action" body ;;
  if strict_eq_str action "sync" then
    dispatch FetchTags ;;
    dispatch FetchTagDetails
  else ret tt.

(** *** Routing *)

(** [handler(body)] for the property found on [this].  [handleMessage] is
    itself such a property; [reenter] stands for its call on [body]. *)
Definition call_method (m : Method) (env : Env) (body : JSValue)
           (reenter : M unit) : M unit :=
  match m with
  | HandleMessage => reenter
  | HandleCalendar => handleCalendar body
  | HandleCommand => handleCommand body
  | HandleAlbum => handleAlbum body
  | HandleTrack => handleTrack body
  | HandleTrackfile => handleTrackfile body
  | HandleHealth => handleHealth body
  | HandleArtist => handleArtist body
  | HandleQueue => handleQueue env body
  | HandleQueueDetails => handleQueueDetails body
  | HandleQueueStatus => handleQueueStatus body
  | HandleVersion => handleVersion body
  | HandleWantedCutoff => handleWantedCutoff body
  | HandleWantedMissing => handleWantedMissing body
  | HandleSystemTask => handleSystemTask body
  | HandleRootfolder => handleRootfolder body
  | HandleTag => handleTag body
  end.

(** The console line of a message without handler: the template text and the
    value interpolated into it. *)
Definition no_handler (name : JSValue) : Effect :=
  Console LError "signalR: Unable to find handler for ${name}" [name].

(** The body of [handleMessage] once [name] and [body] are destructured. *)
Definition route (env : Env) (name body : JSValue) (reenter : M unit) : M unit :=
  match getHandlerName name with
  | None => throwTypeError
  | Some key =>
      match this_method key with
      | Some m => call_method m env body reenter
      | None => emit (no_handler name)
      end
  end.

(** Destructuring [undefined] or [null] raises; a value that is not an
    object has neither [name] nor [body].  The recursion follows the [body]
    binding of the message, which is where a call of the property
    [handleMessage] re-enters. *)
Fixpoint handleMessage (env : Env) (message : JSValue) {struct message} : M unit :=
  match message with
  | JUndefined | JNull => throwTypeError
  | JObj fields =>
      route env (field "name" fields) (field "body" fields)
        ((fix on_body (fs : list (string * JSValue)) : M unit :=
            match fs with
            | [] => throwTypeError
            | (k, v) :: rest =>
                if String.eqb k "body" then handleMessage env v else on_body rest
            end) fields)
  | _ => route env JUndefined JUndefined throwTypeError
  end.

(** [this[key](body)] *)
Definition invoke (m : Method) (env : Env) (body : JSValue) : M unit :=
  call_method m env body (handleMessage env body).

(** *** Listeners *)

Definition onConnected (env : Env) : M unit :=
  emit (Console LDebug "[signalR] connected" []) ;;
  modify (set_disconnectedTime None) ;;
  (if (isReconnecting (props env) || isDisconnected (props env))%bool then
     dispatch FetchArtist ;;
     dispatch fetchCommands ;;
     repopulatePage None
   else ret tt) ;;
  dispatch (setAppValue (mkAttrs (Some true) (Some false) (Some false) (Some false))) ;;
  modify (set_retryInterval 5) ;;
  st <- get ;;
  match retryTimeoutId st with
  | Some id => clearTimeout id
  | None => ret tt
  end.

Definition onReceiveVersion (message : JSValue) : M unit :=
  body <- prop "body" message ;;
  version <- prop "version" body ;;
  dispatch (setVersion version).

Definition onReceiveMessage (env : Env) (message : JSValue) : M unit :=
  name <- prop "name" message ;;
  body <- prop "body" message ;;
  emit (Console LDebug "[signalR] received" [name; body]) ;;
  handleMessage env message.

Definition onClose (env : Env) : M unit :=
  emit (Console LDebug "[signalR] connection closed" []) ;;
  if unloading env then ret tt
  else
    st <- get ;;
    (if falsy_time (disconnectedTime st)
     then modify (set_disconnectedTime (Some (seconds (now env))))
     else ret tt) ;;
    retryConnection env.

Definition onError (env : Env) : M unit :=
  emit (Console LDebug "[signalR] connection error" []) ;;
  if unloading env then ret tt
  else
    st <- get ;;
    (if falsy_time (disconnectedTime st)
     then modify (set_disconnectedTime (Some (seconds (now env))))
     else ret tt) ;;
    retryConnection env.

(** ** The component driven by its surroundings *)

(** What can happen to a mounted component: React calls a lifecycle method,
    the hub settles [start()] or closes, a pending timer elapses, the hub
    delivers a message. *)
Inductive Event : Type :=
| Mount
| Unmount
| Connected
| Errored
| Closed
| TimerElapsed (id : positive)
| ReceiveMessage (message : JSValue)
| ReceiveVersion (message : JSValue).

Definition pending (id : positive) (st : State) : bool :=
  existsb (fun t => Pos.eqb (fst t) id) (timers st).

(** A timer that elapses leaves the pending timers before its callback runs;
    a cancelled timer never elapses. *)
Definition elapse (id : positive) : M unit :=
  st <- get ;;
  if pending id st then
    modify (fun st => mkState (connection st) (retryInterval st) (retryTimeoutId st)
                              (disconnectedTime st) (cancel id (timers st))
                              (nextTimer st) (effects st)) ;;
    retryTimeoutCallback
  else ret tt.

Definition handle (env : Env) (ev : Event) : M unit :=
  match ev with
  | Mount => componentDidMount env
  | Unmount => componentWillUnmount
  | Connected => onConnected env
  | Errored => onError env
  | Closed => onClose env
  | TimerElapsed id => elapse id
  | ReceiveMessage message => onReceiveMessage env message
  | ReceiveVersion message => onReceiveVersion message
  end.

(** An exception ends the callback it was raised in, not the component. *)
Definition step (st : State) (occ : Env * Event) : State :=
  state_of (handle (fst occ) (snd occ) st).

Definition run (trace : list (Env * Event)) (st : State) : State :=
  fold_left step trace st.

End Connector.

(** ** Observations on a state *)

(** The actions that reached the store. *)
Fixpoint dispatched (es : list Effect) : list Action :=
  match es with
  | [] => []
  | Dispatch a :: rest => a :: dispatched rest
  | _ :: rest => dispatched rest
  end.

(** The delays, in milliseconds, of the timers that were started. *)
Fixpoint delays (es : list Effect) : list Z :=
  match es with
  | [] => []
  | SetTimeout _ d :: rest => d :: delays rest
  | _ :: rest => delays rest
  end.

(** [const { name, body } = message] *)
Definition destructure (message : JSValue) : option (JSValue * JSValue) :=
  match getprop "name" message, getprop "body" message with
  | Some name, Some body => Some (name, body)
  | _, _ => None
  end.

(** The surroundings of a page that is not unloading. *)
Definition live (ms : Z) (p : Props) (base : string) : Env :=
  mkEnv false ms p base.

(** One failed connection attempt: [start()] is rejected (or, when the flag
    of the failure is set, the connection closes) at the given clock reading,
    and the retry timer that this started elapses. *)
Definition failed_attempt (titleCase : JSValue -> option string)
           (p : Props) (base : string) (st : State) (failure : bool * Z) : State :=
  let env := live (snd failure) p base in
  let st1 := step titleCase st (env, if fst failure then Closed else Errored) in
  match retryTimeoutId st1 with
  | Some id => step titleCase st1 (env, TimerElapsed id)
  | None => st1
  end.

(** The component after [componentDidMount]. *)
Definition mounted (titleCase : JSValue -> option string)
           (p : Props) (base : string) : State :=
  step titleCase constructed (live 0 p base, Mount).

(** The mounted component after a run of failed attempts with no success in
    between. *)
Definition consecutive_failures (titleCase : JSValue -> option string)
           (p : Props) (base : string) (failures : list (bool * Z)) : State :=
  fold_left (failed_attempt titleCase p base) failures (mounted titleCase p base).

(** The capped linear schedule: the delay of retry number [k], counted from
    [0], in milliseconds. *)
Definition backoff (k : nat) : Z := Z.min (Z.of_nat k + 1) 10 * 1000.

(** A message built by the hub. *)
Definition hub_message (name body : JSValue) : JSValue :=
  JObj [("name"%string, name); ("body"%string, body)].

(** Where a message name leads: to a property of [this], to the console
    line of a missing handler, or to an exception of the name helper. *)
Inductive Routing : Type :=
| ToMethod (m : Method)
| NoHandler
| Raised.

Definition routing (titleCase : JSValue -> option string) (name : JSValue) : Routing :=
  match getHandlerName titleCase name with
  | None => Raised
  | Some key =>
      match this_method key with
      | Some m => ToMethod m
      | None => NoHandler
      end
  end.

Definition routed (titleCase : JSValue -> option string) (r : Routing)
           (env : Env) (name body : JSValue) : M unit :=
  match r with
  | ToMethod m => invoke titleCase m env body
  | NoHandler => emit (no_handler name)
  | Raised => throwTypeError
  end.

(** The effects of the refetch of [onConnected]. *)
Definition refetch : list Effect :=
  [Dispatch FetchArtist; Dispatch FetchCommands; RepopulatePage None].

(** What a close or an error leaves behind outside unload: the console line,
    the failure time if none is held, and one more timer. *)
Definition retried (env : Env) (line : string) (st : State) : State :=
  let recorded :=
    if falsy_time (disconnectedTime st) then Some (seconds (now env))
    else disconnectedTime st in
  let delay := retryInterval st * 1000 in
  mkState (connection st) (retryInterval st) (Some (nextTimer st)) recorded
          (timers st ++ [(nextTimer st, delay)]) (Pos.succ (nextTimer st))
          (effects st ++ [Console LDebug line []; SetTimeout (nextTimer st) delay]).

(** ** Further observations *)

(** The calls of [connection.start()]. *)
Fixpoint starts (es : list Effect) : nat :=
  match es with
  | [] => 0%nat
  | HubStart :: rest => S (starts rest)
  | _ :: rest => starts rest
  end.

(** The identifier of the timer started last, if any was. *)
Fixpoint last_started (es : list Effect) : option positive :=
  match es with
  | [] => None
  | SetTimeout id _ :: rest =>
      match last_started rest with
      | Some later => Some later
      | None => Some id
      end
  | _ :: rest => last_started rest
  end.

(** The events whose listeners hold no [dispatch*] call: the lifecycle
    methods, close, error and the retry timer. *)
Definition silent_event (ev : Event) : bool :=
  match ev with
  | Connected | ReceiveMessage _ | ReceiveVersion _ => false
  | _ => true
  end.

(** What the component keeps true of its timers: [retryTimeoutId] is the
    timer started last, every pending timer was started by [setTimeout], the
    identifiers handed out lie below the next one, and no two pending timers
    share one. *)
Definition timers_consistent (st : State) : Prop :=
  retryTimeoutId st = last_started (effects st) /\
  (forall id d, In (id, d) (timers st) -> In (SetTimeout id d) (effects st)) /\
  (forall id d, In (SetTimeout id d) (effects st) -> (id < nextTimer st)%positive) /\
  NoDup (map fst (timers st)).

(** Effects among which no timer is started. *)
Definition timerless (es : list Effect) : Prop :=
  Forall (fun e => match e with SetTimeout _ _ => False | _ => True end) es.

(** [st'] is [st] with the effects [es] added and nothing else changed. *)
Definition only_adds (es : list Effect) (st st' : State) : Prop :=
  st' = mkState (connection st) (retryInterval st) (retryTimeoutId st)
                (disconnectedTime st) (timers st) (nextTimer st)
                (effects st ++ es).

(** The methods that read a property of [body] before anything else. *)
Definition reads_body (m : Method) : bool :=
  match m with
  | HandleHealth | HandleQueue | HandleQueueDetails
  | HandleSystemTask | HandleRootfolder => false
  | _ => true
  end.

(** The handlers that only forward an updated resource, with the section
    they write to. *)
Definition update_section (m : Method) : option string :=
  match m with
  | HandleCalendar => Some "calendar"%string
  | HandleAlbum => Some "albums"%string
  | HandleTrack => Some "tracks"%string
  | HandleWantedCutoff => Some "cutoffUnmet"%string
  | HandleWantedMissing => Some "missing"%string
  | _ => None
  end.

(** A string without [/], and one with. *)
Fixpoint has_slash (s : string) : bool :=
  match s with
  | EmptyString => false
  | String c rest => (Ascii.eqb c "/" || has_slash rest)%bool
  end.

(** The surroundings of an occurrence say that the page is unloading. *)
Definition while_unloading (occ : Env * Event) : Prop :=
  unloading (fst occ) = true /\ snd occ <> Mount.

(** ** What the store receives *)

(** The key of index [i] of an array or a string. *)
Definition index_key (i : nat) : string :=
  DecimalString.NilEmpty.string_of_uint (Nat.to_uint i).

Fixpoint indexed_from (i : nat) (items : list JSValue) : list (string * JSValue) :=
  match items with
  | [] => []
  | x :: rest => (index_key i, x) :: indexed_from (S i) rest
  end.

Fixpoint characters (s : string) : list JSValue :=
  match s with
  | EmptyString => []
  | String c rest => JStr (String c EmptyString) :: characters rest
  end.

(** The own enumerable properties that [...v] copies: the bindings of an
    object, the elements of an array and the characters of a string by
    index, and nothing for any other value, [undefined] and [null]
    included. *)
Definition own_properties (v : JSValue) : list (string * JSValue) :=
  match v with
  | JObj fields => fields
  | JArr items => indexed_from 0 items
  | JStr s => indexed_from 0 (characters s)
  | _ => []
  end.

Definition has_key (k : string) (fs : list (string * JSValue)) : bool :=
  existsb (fun kv => String.eqb (fst kv) k) fs.

(** [{ ...literal, ...v }] with the literal written first: a property of
    [v] replaces the property of that name of the literal.  An object being
    read by key, first binding first, the bindings of [v] stand before those
    of the literal. *)
Definition object_spread (literal : list (string * JSValue)) (v : JSValue)
  : list (string * JSValue) :=
  own_properties v ++ literal.

Definition flag (name : string) (value : option bool) : list (string * JSValue) :=
  match value with
  | Some b => [(name, JBool b)]
  | None => []
  end.

(** The argument the action creator was called with, which is what the
    store receives as payload; [undefined] for a creator called without
    argument. *)
Definition payload (a : Action) : JSValue :=
  match a with
  | UpdateCommand resource | FinishCommand resource => resource
  | SetAppValue attrs =>
      JObj (flag "isConnected" (attr_isConnected attrs)
            ++ flag "isReconnecting" (attr_isReconnecting attrs)
            ++ flag "isDisconnected" (attr_isDisconnected attrs)
            ++ flag "isRestarting" (attr_isRestarting attrs))
  | SetVersion version => JObj [("version"%string, version)]
  | Update section data =>
      JObj [("section"%string, JStr section); ("data"%string, data)]
  | UpdateItem literal spread => JObj (object_spread literal spread)
  | RemoveItem section id =>
      JObj [("section"%string, JStr section); ("id"%string, id)]
  | _ => JUndefined
  end.

(** What a key reads in [{ ...literal, ...v }]: the property of [v] if it
    has one of that name, the one of the literal otherwise. *)
Definition spread_reads (k : string) (literal : list (string * JSValue))
           (v : JSValue) : JSValue :=
  if has_key k (own_properties v) then field k (own_properties v)
  else field k literal.

(** An update whose resource carries properties named like those the
    handlers write. *)
Definition overriding_resource : JSValue :=
  JObj [("id", JNum 3); ("section", JStr "history");
        ("updateOnly", JBool false)]%string.

Definition overriding_update : JSValue :=
  JObj [("action", JStr "updated"); ("resource", overriding_resource)]%string.

(** ** Sample surroundings and messages *)

Definition no_flags : Props := mkProps false false false.

(** A page that is being left. *)
Definition leaving (ms : Z) : Env := mkEnv true ms no_flags "".

(** A page in use, at a given clock reading. *)
Definition at_ms (ms : Z) : Env := live ms no_flags "".

Definition failed_command : JSValue :=
  JObj [("action", JStr "updated");
        ("resource", JObj [("id", JNum 7); ("status", JStr "failed")])]%string.

Definition started_command : JSValue :=
  JObj [("action", JStr "updated");
        ("resource", JObj [("id", JNum 8); ("status", JStr "started")])]%string.

(** The mounted component after a first rejected [start()]: timer 1 is
    pending. *)
Definition retrying : State :=
  step titleCase_spec (mounted titleCase_spec no_flags "")
       (at_ms 1700000000300, Errored).

Definition version_body : JSValue :=
  JObj [("version", JStr "0.8.1")]%string.

Definition deleted_artist : JSValue :=
  JObj [("action", JStr "deleted"); ("resource", JObj [("id", JNum 3)])]%string.

(** ** Predicates on computations and states *)

(** The effects that touch neither the hub nor the timers. *)
Definition passive (e : Effect) : Prop :=
  match e with
  | Console _ _ _ | Dispatch _ | RepopulatePage _ => True
  | _ => False
  end.

(** A quiet computation leaves every field of the component and the timers
    alone and adds passive effects only. *)
Definition quiet {A} (c : M A) : Prop :=
  forall st, exists es,
    Forall passive es /\
    state_of (c st) =
      mkState (connection st) (retryInterval st) (retryTimeoutId st)
              (disconnectedTime st) (timers st) (nextTimer st) (effects st ++ es).

(** A timer waits between 1 and 10 seconds. *)
Definition delay_ok (e : Effect) : Prop :=
  match e with
  | SetTimeout _ d => 1000 <= d <= 10000
  | _ => True
  end.

(** The interval is between 1 and 10 and so was the wait of every timer
    started so far. *)
Definition bounded (st : State) : Prop :=
  1 <= retryInterval st <= 10 /\ Forall delay_ok (effects st).

(** * Properties *)

(** ** Induction on values, through arrays and objects *)

Section JSValue_deep_induction.

Variable P : JSValue -> Prop.
Hypothesis P_undefined : P JUndefined.
Hypothesis P_null : P JNull.
Hypothesis P_bool : forall b, P (JBool b).
Hypothesis P_num : forall n, P (JNum n).
Hypothesis P_str : forall s, P (JStr s).
Hypothesis P_arr : forall items, Forall P items -> P (JArr items).
Hypothesis P_obj : forall fields, Forall (fun kv => P (snd kv)) fields -> P (JObj fields).

Fixpoint JSValue_deep_ind (v : JSValue) : P v :=
  match v with
  | JUndefined => P_undefined
  | JNull => P_null
  | JBool b => P_bool b
  | JNum n => P_num n
  | JStr s => P_str s
  | JArr items =>
      P_arr items
        ((fix all (l : list JSValue) : Forall P l :=
            match l with
            | [] => Forall_nil P
            | x :: rest => Forall_cons x (JSValue_deep_ind x) (all rest)
            end) items)
  | JObj fields =>
      P_obj fields
        ((fix all (l : list (string * JSValue)) : Forall (fun kv => P (snd kv)) l :=
            match l with
            | [] => Forall_nil _
            | kv :: rest => Forall_cons kv (JSValue_deep_ind (snd kv)) (all rest)
            end) fields)
  end.

End JSValue_deep_induction.

(** ** Methods that only log, dispatch or repopulate *)

Lemma quiet_ret {A} (a : A) : quiet (ret a).
Proof.
  intros st. exists []. split; [constructor|].
  destruct st; simpl. now rewrite app_nil_r.
Qed.

Lemma quiet_throw {A} : quiet (@throwTypeError A).
Proof.
  intros st. exists []. split; [constructor|].
  destruct st; simpl. now rewrite app_nil_r.
Qed.

Lemma quiet_emit e : passive e -> quiet (emit e).
Proof.
  intros He st. exists [e]. split; [now repeat constructor|reflexivity].
Qed.

Lemma quiet_bind {A B} (m : M A) (k : A -> M B) :
  quiet m -> (forall a, quiet (k a)) -> quiet (bind m k).
Proof.
  intros Hm Hk st. unfold bind.
  destruct (Hm st) as (es1 & P1 & E1).
  destruct (m st) as [a st1|st1]; simpl in E1; subst st1.
  - destruct (Hk a (mkState (connection st) (retryInterval st) (retryTimeoutId st)
                            (disconnectedTime st) (timers st) (nextTimer st)
                            (effects st ++ es1))) as (es2 & P2 & E2).
    exists (es1 ++ es2). split; [now apply Forall_app|].
    rewrite E2. simpl. now rewrite app_assoc.
  - now exists es1.
Qed.

Lemma quiet_prop k v : quiet (prop k v).
Proof.
  unfold prop. destruct (getprop k v); [apply quiet_ret|apply quiet_throw].
Qed.

Lemma quiet_dispatch a : quiet (dispatch a).
Proof. now apply quiet_emit. Qed.

Lemma quiet_repopulatePage r : quiet (repopulatePage r).
Proof. now apply quiet_emit. Qed.

Create HintDb quiet.

#[local] Hint Resolve quiet_ret quiet_throw quiet_prop quiet_dispatch
  quiet_repopulatePage : quiet.

Ltac quiet_step :=
  match goal with
  | |- quiet (bind _ _) => apply quiet_bind; [|intros ?]
  | |- quiet (if ?b then _ else _) => destruct b
  | |- quiet (emit _) => apply quiet_emit; exact I
  | |- quiet _ => solve [auto with quiet]
  end.

Ltac quiet_method := repeat quiet_step.

Section Quiet_handlers.

Variable titleCase : JSValue -> option string.

Lemma quiet_call_method m env body reenter :
  quiet reenter -> quiet (call_method m env body reenter).
Proof.
  intros Hre. destruct m; simpl; try assumption;
    unfold handleCalendar, handleCommand, handleAlbum, handleTrack,
      handleTrackfile, handleHealth, handleArtist, handleQueue,
      handleQueueDetails, handleQueueStatus, handleVersion,
      handleWantedCutoff, handleWantedMissing, handleSystemTask,
      handleRootfolder, handleTag;
    quiet_method.
Qed.

Lemma quiet_route env name body reenter :
  quiet reenter -> quiet (route titleCase env name body reenter).
Proof.
  intros Hre. unfold route.
  destruct (getHandlerName titleCase name) as [key|]; [|apply quiet_throw].
  destruct (this_method key) as [m|].
  - now apply quiet_call_method.
  - now apply quiet_emit.
Qed.

(** The re-entrant call of [handleMessage] is its call on the [body]
    binding. *)
Lemma on_body_field env fields :
  (fix on_body (fs : list (string * JSValue)) : M unit :=
     match fs with
     | [] => throwTypeError
     | (k, v) :: rest =>
         if String.eqb k "body" then handleMessage titleCase env v else on_body rest
     end) fields
  = handleMessage titleCase env (field "body" fields).
Proof.
  induction fields as [|[k v] rest IH]; simpl; [reflexivity|].
  destruct (String.eqb k "body"); [reflexivity|exact IH].
Qed.

Lemma handleMessage_unfold env message :
  handleMessage titleCase env message =
  match destructure message with
  | None => throwTypeError
  | Some (name, body) =>
      route titleCase env name body (handleMessage titleCase env body)
  end.
Proof.
  destruct message; try reflexivity.
  unfold destructure; simpl. now rewrite on_body_field.
Qed.

Lemma quiet_handleMessage env message : quiet (handleMessage titleCase env message).
Proof.
  induction message using JSValue_deep_ind;
    try (simpl; apply quiet_throw);
    try (simpl; apply quiet_route; apply quiet_throw).
  simpl. apply quiet_route.
  induction fields as [|[k v] rest IH]; [apply quiet_throw|].
  inversion H; subst. destruct (String.eqb k "body"); auto.
Qed.

Lemma quiet_onReceiveMessage env message :
  quiet (onReceiveMessage titleCase env message).
Proof.
  unfold onReceiveMessage. quiet_method. apply quiet_handleMessage.
Qed.

Lemma quiet_onReceiveVersion message : quiet (onReceiveVersion message).
Proof. unfold onReceiveVersion. quiet_method. Qed.

End Quiet_handlers.

(** ** The retry policy *)

Section Retry_policy.

Variable titleCase : JSValue -> option string.

Lemma passive_delay_ok es : Forall passive es -> Forall delay_ok es.
Proof.
  apply Forall_impl. intros [] H; simpl in *; auto; contradiction.
Qed.

Lemma quiet_bounded {A} (c : M A) st :
  quiet c -> bounded st -> bounded (state_of (c st)).
Proof.
  intros Hq [Hr He]. destruct (Hq st) as (es & Hp & E). rewrite E.
  split; simpl; [assumption|].
  apply Forall_app. split; [assumption|now apply passive_delay_ok].
Qed.

Lemma retryConnection_eq env st :
  retryConnection env st =
  Normal tt (mkState (connection st) (retryInterval st) (Some (nextTimer st))
                     (disconnectedTime st)
                     (timers st ++ [(nextTimer st, retryInterval st * 1000)])
                     (Pos.succ (nextTimer st))
                     (effects st ++ [SetTimeout (nextTimer st) (retryInterval st * 1000)])).
Proof. reflexivity. Qed.

Lemma step_bounded st occ : bounded st -> bounded (step titleCase st occ).
Proof.
  intros Hb. destruct occ as [env ev]. unfold step; simpl.
  destruct ev; simpl.
  - (* Mount *)
    destruct Hb as [Hr He]. split; simpl; [assumption|].
    repeat (apply Forall_app; split; [|now repeat constructor]). assumption.
  - (* Unmount *)
    destruct Hb as [Hr He]. unfold componentWillUnmount, bind; simpl.
    destruct (connection st); simpl; split; simpl; auto.
    apply Forall_app; split; [assumption|now repeat constructor].
  - (* Connected *)
    destruct Hb as [Hr He]. unfold onConnected, bind; simpl.
    destruct (isReconnecting (props env) || isDisconnected (props env))%bool;
      simpl; destruct (retryTimeoutId st); simpl; split; simpl; try lia;
      repeat (apply Forall_app; split; [|now repeat constructor]); assumption.
  - (* Errored *)
    destruct Hb as [Hr He]. unfold onError, bind; simpl.
    destruct (unloading env); simpl.
    + split; simpl; [assumption|].
      apply Forall_app; split; [assumption|now repeat constructor].
    + destruct (falsy_time (disconnectedTime st)); simpl; split; simpl;
        try assumption;
        repeat (apply Forall_app; split; [|repeat constructor; simpl; lia]);
        assumption.
  - (* Closed *)
    destruct Hb as [Hr He]. unfold onClose, bind; simpl.
    destruct (unloading env); simpl.
    + split; simpl; [assumption|].
      apply Forall_app; split; [assumption|now repeat constructor].
    + destruct (falsy_time (disconnectedTime st)); simpl; split; simpl;
        try assumption;
        repeat (apply Forall_app; split; [|repeat constructor; simpl; lia]);
        assumption.
  - (* TimerElapsed *)
    destruct Hb as [Hr He]. unfold elapse, bind; simpl.
    destruct (pending id st); simpl; [|now split].
    unfold retryTimeoutCallback, startConnection, bind; simpl.
    destruct (connection st); simpl; split; simpl; try lia; try assumption.
    apply Forall_app; split; [assumption|now repeat constructor].
  - now apply quiet_bounded; [apply quiet_onReceiveMessage|].
  - now apply quiet_bounded; [apply quiet_onReceiveVersion|].
Qed.

Lemma run_bounded trace : forall st, bounded st -> bounded (run titleCase trace st).
Proof.
  induction trace as [|occ trace IH]; intros st Hb; simpl; [assumption|].
  apply IH. now apply step_bounded.
Qed.

Lemma constructed_bounded : bounded constructed.
Proof. split; simpl; [lia|constructor]. Qed.

Lemma delays_app es1 es2 : delays (es1 ++ es2) = delays es1 ++ delays es2.
Proof.
  induction es1 as [|e es1 IH]; simpl; [reflexivity|].
  destruct e; simpl; now rewrite ?IH.
Qed.

Lemma pending_last id d ts st :
  timers st = ts ++ [(id, d)] -> pending id st = true.
Proof.
  intros E. unfold pending. rewrite E, existsb_app. simpl.
  now rewrite Pos.eqb_refl, orb_true_r.
Qed.

(** When a pending timer of the mounted component elapses, a connection is
    started and the interval becomes one more, or stays 10. *)
Lemma retry_timer_elapsed id st hub :
  pending id st = true ->
  connection st = Some hub ->
  let st' := state_of (elapse id st) in
  retryInterval st' = Z.min (retryInterval st + 1) 10 /\
  effects st' = effects st ++ [HubStart] /\
  timers st' = cancel id (timers st).
Proof.
  intros Hp Hc. unfold elapse, bind; simpl. rewrite Hp; simpl.
  unfold retryTimeoutCallback, startConnection, bind; simpl.
  rewrite Hc; simpl. now repeat split.
Qed.

(** One failed attempt of a mounted component outside unload: the timer it
    starts waits [retryInterval] seconds, and once it has elapsed the interval
    is one more, or stays 10. *)
Lemma failed_attempt_effect p base st failure hub :
  connection st = Some hub ->
  let st' := failed_attempt titleCase p base st failure in
  connection st' = Some hub /\
  retryInterval st' = Z.min (retryInterval st + 1) 10 /\
  delays (effects st') = delays (effects st) ++ [retryInterval st * 1000].
Proof.
  intros Hc. unfold failed_attempt, step, live; simpl.
  destruct failure as [[|] ms]; simpl;
    unfold onClose, onError, bind; simpl;
    destruct (falsy_time (disconnectedTime st)); simpl;
    unfold elapse, bind; simpl;
    (erewrite pending_last by reflexivity); simpl;
    unfold retryTimeoutCallback, startConnection, bind; simpl;
    rewrite Hc; simpl;
    (split; [reflexivity|split; [reflexivity|]]);
    rewrite !delays_app; simpl; now rewrite ?app_nil_r.
Qed.

Lemma failures_from p base failures : forall st hub (k : nat),
  connection st = Some hub ->
  retryInterval st = Z.min (Z.of_nat k + 1) 10 ->
  let st' := fold_left (failed_attempt titleCase p base) failures st in
  retryInterval st' = Z.min (Z.of_nat (k + List.length failures) + 1) 10 /\
  delays (effects st') = delays (effects st) ++ map backoff (seq k (List.length failures)).
Proof.
  induction failures as [|f failures IH]; intros st hub k Hc Hr; simpl.
  - rewrite Nat.add_0_r, app_nil_r. now split.
  - destruct (failed_attempt_effect p base st f hub Hc) as (Hc' & Hr' & Hd').
    destruct (IH _ hub (S k) Hc') as [Hr'' Hd''].
    + rewrite Hr', Hr. lia.
    + split.
      * simpl in Hr''. rewrite Hr''. f_equal. lia.
      * simpl in Hd''. rewrite Hd'', Hd', <- app_assoc. simpl.
        unfold backoff at 2. now rewrite Hr.
Qed.

(** C1: the reconnection policy is a linear backoff capped at 10 seconds.
    The constructor sets [retryInterval] to 1; every retry that
    [retryConnection] schedules waits [retryInterval] seconds
    ([retryInterval * 1000] ms); over any run of consecutive failures of the
    mounted component the interval grows by one per attempt until it reaches
    10, so that retry number [k] waits [min (k + 1) 10] seconds; and whatever
    happens to the component, the interval stays between 1 and 10 and so does
    the delay of every timer ever started. *)
Theorem linear_backoff_capped :
  retryInterval constructed = 1 /\
  (forall env st,
      let st' := state_of (retryConnection env st) in
      timers st' = timers st ++ [(nextTimer st, retryInterval st * 1000)] /\
      retryTimeoutId st' = Some (nextTimer st) /\
      retryInterval st' = retryInterval st) /\
  (forall p base failures,
      let st := consecutive_failures titleCase p base failures in
      retryInterval st = Z.min (Z.of_nat (List.length failures) + 1) 10 /\
      delays (effects st) = map backoff (seq 0 (List.length failures))) /\
  (forall trace,
      let st := run titleCase trace constructed in
      1 <= retryInterval st <= 10 /\ Forall delay_ok (effects st)).
Proof.
  split; [reflexivity|]. split; [|split].
  - intros env st. rewrite retryConnection_eq. simpl. now repeat split.
  - intros p base failures. unfold consecutive_failures.
    destruct (failures_from p base failures (mounted titleCase p base)
                (String.append base "/signalr/messages") 0)
      as [Hr Hd]; [reflexivity|reflexivity|].
    split; [exact Hr|exact Hd].
  - intros trace. apply run_bounded, constructed_bounded.
Qed.

End Retry_policy.

(** ** The listeners *)

Lemma dispatched_app es1 es2 :
  dispatched (es1 ++ es2) = dispatched es1 ++ dispatched es2.
Proof.
  induction es1 as [|e es1 IH]; simpl; [reflexivity|].
  destruct e; simpl; now rewrite ?IH.
Qed.

Lemma cancel_not_pending id ts :
  existsb (fun t : positive * Z => Pos.eqb (fst t) id) (cancel id ts) = false.
Proof.
  unfold cancel. induction ts as [|[i d] ts IH]; simpl; [reflexivity|].
  destruct (Pos.eqb i id) eqn:E; simpl; [exact IH|].
  now rewrite E.
Qed.

(** While the page is unloading, a close or an error only writes its
    console line: no failure time is recorded, no timer is started, nothing
    reaches the store, and no field of the component changes. *)
Lemma close_or_error_while_unloading env st :
  unloading env = true ->
  onClose env st = Normal tt (add_effect (Console LDebug "[signalR] connection closed" []) st) /\
  onError env st = Normal tt (add_effect (Console LDebug "[signalR] connection error" []) st).
Proof.
  intros Hu. unfold onClose, onError, bind; simpl. rewrite Hu. now split.
Qed.

(** C3 (as amended): whenever the connection closes or a connection attempt
    errors while the page is not unloading, the component logs and retries
    and does nothing else: it writes its console line, records the failure
    time (whole seconds) unless one is held, and starts one timer of
    [retryInterval] seconds for the next attempt; the interval, the hub and
    the store are left as they were.  While the page is unloading it only
    writes its console line. *)
Theorem close_or_error_logs_and_retries env st :
  (unloading env = false ->
   onClose env st = Normal tt (retried env "[signalR] connection closed" st) /\
   onError env st = Normal tt (retried env "[signalR] connection error" st)) /\
  (unloading env = true ->
   onClose env st =
     Normal tt (add_effect (Console LDebug "[signalR] connection closed" []) st) /\
   onError env st =
     Normal tt (add_effect (Console LDebug "[signalR] connection error" []) st)).
Proof.
  split; [|apply close_or_error_while_unloading].
  intros Hu. unfold onClose, onError, bind, retried; simpl. rewrite Hu; simpl.
  destruct (falsy_time (disconnectedTime st)); simpl;
    rewrite !retryConnection_eq; simpl; rewrite <- !app_assoc; now split.
Qed.

(** C4 (what the code does on a retry): [retryConnection] sends no action to
    the store, whatever the state and the clock; the action built by
    [setAppValue] is dropped.  So over a whole outage, here one that has
    lasted more than 180 seconds when the second attempt fails, the store has
    received nothing.  A successful connection does send its action. *)
Theorem retry_reaches_no_store :
  (forall env st,
      dispatched (effects (state_of (retryConnection env st))) = dispatched (effects st)) /\
  (let p := mkProps false false false in
   let st := run titleCase_spec
                 [(live 1000000 p "", Mount);
                  (live 1000500 p "", Errored);
                  (live 1001500 p "", TimerElapsed 1);
                  (live 1200000 p "", Errored)] constructed in
   isAppDisconnected 1200000 (disconnectedTime st) = true /\
   delays (effects st) = [1000; 2000] /\
   dispatched (effects st) = []) /\
  (forall env st,
      dispatched (effects (state_of (onConnected env st))) =
      dispatched (effects st) ++
      (if (isReconnecting (props env) || isDisconnected (props env))%bool
       then [FetchArtist; FetchCommands] else []) ++
      [SetAppValue (mkAttrs (Some true) (Some false) (Some false) (Some false))]).
Proof.
  split; [|split].
  - intros env st. rewrite retryConnection_eq. simpl.
    rewrite dispatched_app. simpl. now rewrite app_nil_r.
  - now vm_compute.
  - intros env st. unfold onConnected, bind; simpl.
    destruct (isReconnecting (props env) || isDisconnected (props env))%bool;
      simpl; destruct (retryTimeoutId st); simpl;
      rewrite !dispatched_app; simpl; rewrite <- ?app_assoc; simpl;
      now rewrite ?app_nil_r.
Qed.

(** C5 (as amended): on every successful connection the failure time is
    reset to null, the retry timer recorded in [retryTimeoutId] (if any) is
    cancelled, and the retry interval is set to 5 seconds. *)
Theorem connected_clears_backoff env st :
  let st' := state_of (onConnected env st) in
  onConnected env st = Normal tt st' /\
  disconnectedTime st' = None /\
  retryInterval st' = 5 /\
  timers st' = match retryTimeoutId st with
               | Some id => cancel id (timers st)
               | None => timers st
               end /\
  match retryTimeoutId st with
  | Some id => pending id st' = false
  | None => True
  end.
Proof.
  unfold onConnected, bind; simpl.
  destruct (isReconnecting (props env) || isDisconnected (props env))%bool;
    simpl; destruct (retryTimeoutId st) as [id|]; simpl;
    repeat split; try reflexivity; apply cancel_not_pending.
Qed.

(** C6: on every successful connection the refetch (fetch artists, fetch
    commands, repopulate the page) happens exactly when the props report the
    app as reconnecting or disconnected; with neither flag set the connection
    only logs, sends the connected flags and cancels the recorded timer. *)
Theorem connected_refetches_iff_flagged env st :
  effects (state_of (onConnected env st)) =
  effects st
  ++ [Console LDebug "[signalR] connected" []]
  ++ (if (isReconnecting (props env) || isDisconnected (props env))%bool
      then refetch else [])
  ++ [Dispatch (SetAppValue (mkAttrs (Some true) (Some false) (Some false) (Some false)))]
  ++ match retryTimeoutId st with
     | Some id => [ClearTimeout id]
     | None => []
     end.
Proof.
  unfold onConnected, bind, refetch; simpl.
  destruct (isReconnecting (props env) || isDisconnected (props env))%bool;
    simpl; destruct (retryTimeoutId st); simpl;
    rewrite <- ?app_assoc; simpl; now rewrite ?app_nil_r.
Qed.

(** ** The failure time *)

Lemma falsy_time_cases d :
  falsy_time d = true <-> d = None \/ d = Some 0.
Proof.
  destruct d as [t|]; simpl.
  - rewrite Z.eqb_eq. split.
    + intros ->. now right.
    + intros [H|H]; [discriminate|now injection H].
  - split; auto.
Qed.

Lemma isAppDisconnected_true ms d :
  isAppDisconnected ms d = true <->
  exists t, d = Some t /\ t <> 0 /\ seconds ms - t > 180.
Proof.
  unfold isAppDisconnected. destruct d as [t|]; simpl.
  - destruct (Z.eqb_spec t 0) as [E|E].
    + split; [discriminate|]. intros (t' & Ht & Hn & _). congruence.
    + rewrite Z.gtb_gt. split.
      * intros H. now exists t.
      * intros (t' & Ht & _ & H). now injection Ht as ->.
  - split; [discriminate|]. intros (t & Ht & _). discriminate.
Qed.

Section Failure_time.

Variable titleCase : JSValue -> option string.

Lemma quiet_disconnectedTime {A} (c : M A) st :
  quiet c -> disconnectedTime (state_of (c st)) = disconnectedTime st.
Proof.
  intros Hq. destruct (Hq st) as (es & _ & E). now rewrite E.
Qed.

Lemma step_disconnectedTime env ev st :
  disconnectedTime (step titleCase st (env, ev)) =
  match ev with
  | Connected => None
  | Closed | Errored =>
      if (negb (unloading env) && falsy_time (disconnectedTime st))%bool
      then Some (seconds (now env))
      else disconnectedTime st
  | _ => disconnectedTime st
  end.
Proof.
  unfold step; simpl. destruct ev; simpl.
  - reflexivity.
  - unfold componentWillUnmount, bind; simpl. now destruct (connection st).
  - unfold onConnected, bind; simpl.
    destruct (isReconnecting (props env) || isDisconnected (props env))%bool;
      simpl; now destruct (retryTimeoutId st).
  - unfold onError, bind; simpl.
    destruct (unloading env); simpl; [reflexivity|].
    now destruct (falsy_time (disconnectedTime st)).
  - unfold onClose, bind; simpl.
    destruct (unloading env); simpl; [reflexivity|].
    now destruct (falsy_time (disconnectedTime st)).
  - unfold elapse, bind; simpl. destruct (pending id st); simpl; [|reflexivity].
    unfold retryTimeoutCallback, startConnection, bind; simpl.
    now destruct (connection st).
  - apply quiet_disconnectedTime, quiet_onReceiveMessage.
  - apply quiet_disconnectedTime, quiet_onReceiveVersion.
Qed.

(** Until the next successful connection a failure time other than 0 stays
    the one of the first failure. *)
Lemma first_failure_time_kept trace : forall st t,
  disconnectedTime st = Some t -> t <> 0 ->
  Forall (fun occ : Env * Event => snd occ <> Connected) trace ->
  disconnectedTime (run titleCase trace st) = Some t.
Proof.
  induction trace as [|[env ev] trace IH]; intros st t Hd Ht Hall; simpl;
    [assumption|].
  inversion Hall as [|occ rest Hev Hrest]; subst. apply IH; [|assumption..].
  rewrite step_disconnectedTime, Hd. simpl.
  apply Z.eqb_neq in Ht. rewrite Ht, andb_false_r.
  destruct ev; try reflexivity. now simpl in Hev.
Qed.

(** What the truthiness tests make of the failure time: it is written by
    three listeners only.  A close or an error outside unload sets it, to
    the clock in whole seconds, when it is null or 0, and keeps it
    otherwise; a successful connection resets it to null; nothing else
    touches it.  So a failure time other than 0 is that of the first failure
    since the last connection.  The app counts as disconnected exactly when
    a failure time other than 0 is held and more than 180 whole seconds of
    the clock lie between it and now. *)
Theorem disconnected_time_tracking :
  (forall env ev st,
      disconnectedTime (step titleCase st (env, ev)) =
      match ev with
      | Connected => None
      | Closed | Errored =>
          if (negb (unloading env) && falsy_time (disconnectedTime st))%bool
          then Some (seconds (now env))
          else disconnectedTime st
      | _ => disconnectedTime st
      end) /\
  (forall d, falsy_time d = true <-> d = None \/ d = Some 0) /\
  (forall trace st t,
      disconnectedTime st = Some t -> t <> 0 ->
      Forall (fun occ : Env * Event => snd occ <> Connected) trace ->
      disconnectedTime (run titleCase trace st) = Some t) /\
  (forall ms d,
      isAppDisconnected ms d = true <->
      exists t, d = Some t /\ t <> 0 /\ seconds ms - t > 180).
Proof.
  split; [exact step_disconnectedTime|].
  split; [exact falsy_time_cases|].
  split; [|exact isAppDisconnected_true].
  intros trace st t. apply first_failure_time_kept.
Qed.

End Failure_time.

(** ** Message routing *)

Lemma strict_eq_str_true v lit : strict_eq_str v lit = true <-> v = JStr lit.
Proof.
  destruct v; simpl; try (split; [discriminate|discriminate]).
  rewrite String.eqb_eq. split; [now intros ->|now intros [= ->]].
Qed.

Lemma strict_eq_str_false v lit : v <> JStr lit -> strict_eq_str v lit = false.
Proof.
  intros H. destruct (strict_eq_str v lit) eqn:E; [|reflexivity].
  now apply strict_eq_str_true in E.
Qed.

Section Routing_properties.

Variable titleCase : JSValue -> option string.

Lemma handleMessage_routed env message name body st :
  destructure message = Some (name, body) ->
  handleMessage titleCase env message st =
  routed titleCase (routing titleCase name) env name body st.
Proof.
  intros Hd. rewrite handleMessage_unfold, Hd.
  unfold route, routing, routed.
  destruct (getHandlerName titleCase name) as [key|]; [|reflexivity].
  now destruct (this_method key).
Qed.

(** C2 (as amended): for every incoming generic message the handler is
    selected by title-casing the message name (the helper that uppercases the
    first letter), removing the first [/] from the result and prefixing it
    with the fixed string [handle]; if the instance has a method of that name
    it is invoked with the message body, otherwise the error line is logged
    and nothing else happens. *)
Theorem message_handler_selection env message name body title st :
  destructure message = Some (name, body) ->
  titleCase name = Some title ->
  getHandlerName titleCase name = Some (String.append "handle" (replace "/" "" title)) /\
  match this_method (String.append "handle" (replace "/" "" title)) with
  | Some m => handleMessage titleCase env message st = invoke titleCase m env body st
  | None => handleMessage titleCase env message st = Normal tt (add_effect (no_handler name) st)
  end.
Proof.
  intros Hd Ht.
  assert (Hk : getHandlerName titleCase name
               = Some (String.append "handle" (replace "/" "" title)))
    by (unfold getHandlerName; now rewrite Ht).
  split; [exact Hk|].
  rewrite (handleMessage_routed env message name body st Hd).
  unfold routing. rewrite Hk.
  now destruct (this_method (String.append "handle" (replace "/" "" title))).
Qed.

(** C7: routing is a flat lookup on the name.  Two messages with the same
    name are routed alike, to the same method or to the same error line,
    whatever their bodies, the props and the clock, and whatever state earlier
    messages and events have left: [routing] reads the name and the fixed
    methods of the instance, nothing else. *)
Theorem routing_depends_on_name_only env1 env2 m1 m2 name b1 b2 st1 st2 :
  destructure m1 = Some (name, b1) ->
  destructure m2 = Some (name, b2) ->
  handleMessage titleCase env1 m1 st1 =
    routed titleCase (routing titleCase name) env1 name b1 st1 /\
  handleMessage titleCase env2 m2 st2 =
    routed titleCase (routing titleCase name) env2 name b2 st2.
Proof.
  intros H1 H2. split; now apply handleMessage_routed.
Qed.

(** C10: a message named [command] is handled by [handleCommand].  If its
    action is ['sync'], exactly one [fetchCommands] is dispatched and nothing
    else happens; otherwise, with the resource of the message,
    [finishCommand] is dispatched when the status of the resource is
    ['completed'] or ['failed'], and [updateCommand] for every other status;
    in each case that one action is all that happens. *)
Theorem command_message_dispatch env message body action st :
  titleCase (JStr "command") = Some "Command"%string ->
  destructure message = Some (JStr "command", body) ->
  getprop "action" body = Some action ->
  handleMessage titleCase env message st = handleCommand body st /\
  (action = JStr "sync" ->
   handleCommand body st = Normal tt (add_effect (Dispatch FetchCommands) st)) /\
  (action <> JStr "sync" ->
   forall resource status,
     getprop "resource" body = Some resource ->
     getprop "status" resource = Some status ->
     (status = JStr "completed" \/ status = JStr "failed" ->
      handleCommand body st =
      Normal tt (add_effect (Dispatch (FinishCommand resource)) st)) /\
     (status <> JStr "completed" -> status <> JStr "failed" ->
      handleCommand body st =
      Normal tt (add_effect (Dispatch (UpdateCommand resource)) st))).
Proof.
  intros Ht Hd Ha. split; [|split].
  - rewrite (handleMessage_routed env message _ body st Hd).
    unfold routing, getHandlerName. now rewrite Ht.
  - intros ->. unfold handleCommand, bind, prop. now rewrite Ha.
  - intros Hsync resource status Hr Hs.
    unfold handleCommand, bind, prop. rewrite Ha; simpl.
    rewrite (strict_eq_str_false _ _ Hsync), Hr; simpl. rewrite Hs; simpl.
    split.
    + intros [-> | ->]; reflexivity.
    + intros Hc Hf.
      now rewrite (strict_eq_str_false _ _ Hc), (strict_eq_str_false _ _ Hf).
Qed.

(** A command message that is no sync and carries no resource raises on
    [resource.status] and dispatches nothing. *)
Lemma command_without_resource body action resource st :
  getprop "action" body = Some action ->
  action <> JStr "sync" ->
  getprop "resource" body = Some resource ->
  nullish resource = true ->
  handleCommand body st = Throw st.
Proof.
  intros Ha Hsync Hr Hn. unfold handleCommand, bind, prop.
  rewrite Ha; simpl. rewrite (strict_eq_str_false _ _ Hsync), Hr; simpl.
  destruct resource; try discriminate; reflexivity.
Qed.

(** The property [handleMessage] is found like any other handler: a message
    named [message] is routed by the name of its body. *)
Lemma message_named_message_reenters env body st :
  titleCase (JStr "message") = Some "Message"%string ->
  handleMessage titleCase env (hub_message (JStr "message") body) st =
  handleMessage titleCase env body st.
Proof.
  intros Ht.
  rewrite (handleMessage_routed env (hub_message (JStr "message") body)
             (JStr "message") body st eq_refl).
  unfold routing, getHandlerName. now rewrite Ht.
Qed.

End Routing_properties.

(** ** The properties at concrete inputs *)

(** With the page in use, a close of the freshly mounted component logs,
    records second 1700000000 and starts timer 1 of 1000 ms; with the page
    being left it only logs. *)
Lemma close_or_error_logs_and_retries_witness :
  unloading (at_ms 1700000000123) = false /\
  (onClose (at_ms 1700000000123) (mounted titleCase_spec no_flags "") =
     Normal tt (retried (at_ms 1700000000123) "[signalR] connection closed"
                        (mounted titleCase_spec no_flags "")) /\
   onError (at_ms 1700000000123) (mounted titleCase_spec no_flags "") =
     Normal tt (retried (at_ms 1700000000123) "[signalR] connection error"
                        (mounted titleCase_spec no_flags ""))) /\
  unloading (leaving 1700000060000) = true /\
  (onClose (leaving 1700000060000) (mounted titleCase_spec no_flags "") =
     Normal tt (add_effect (Console LDebug "[signalR] connection closed" [])
                           (mounted titleCase_spec no_flags "")) /\
   onError (leaving 1700000060000) (mounted titleCase_spec no_flags "") =
     Normal tt (add_effect (Console LDebug "[signalR] connection error" [])
                           (mounted titleCase_spec no_flags ""))).
Proof.
  split; [reflexivity|]. split.
  - apply (proj1 (close_or_error_logs_and_retries (at_ms 1700000000123)
                    (mounted titleCase_spec no_flags ""))).
    reflexivity.
  - split; [reflexivity|].
    apply (proj2 (close_or_error_logs_and_retries (leaving 1700000060000)
                    (mounted titleCase_spec no_flags ""))).
    reflexivity.
Defined.

(** C3 as stated fails: a close while the page is unloading starts no timer
    (and records no failure time), although every close was to schedule a
    retry. *)
Lemma close_while_unloading_schedules_no_retry :
  let st := run titleCase_spec
                [(at_ms 1700000000000, Mount);
                 (at_ms 1700000000400, Connected);
                 (leaving 1700000060000, Closed)] constructed in
  timers st = [] /\ delays (effects st) = [] /\ disconnectedTime st = None /\
  retryTimeoutId st = None.
Proof. now vm_compute. Qed.

(** C5 as stated fails: after the first successful connection the retry
    interval is 5, not the 1 the constructor set; the next failure waits
    5000 ms. *)
Lemma connected_sets_interval_to_five :
  let st := run titleCase_spec
                [(at_ms 1700000000000, Mount);
                 (at_ms 1700000000400, Connected)] constructed in
  retryInterval constructed = 1 /\
  retryInterval st = 5 /\
  delays (effects (step titleCase_spec st (at_ms 1700000060000, Closed))) = [5000].
Proof. now vm_compute. Qed.

(** Only the timer recorded last is cancelled: when a rejected [start()] and
    a close have each started a timer, the first one survives the
    connection. *)
Lemma only_recorded_timer_is_cancelled :
  let st := run titleCase_spec
                [(at_ms 1700000000000, Mount);
                 (at_ms 1700000000300, Errored);
                 (at_ms 1700000000310, Closed);
                 (at_ms 1700000000900, Connected)] constructed in
  retryTimeoutId st = Some 2%positive /\
  timers st = [(1%positive, 1000)] /\
  pending 2 st = false.
Proof. now vm_compute. Qed.

(** When the clock stands within the first second of 1970 the failure
    time recorded is 0, which reads as unset.  The next
    failure overwrites it although it is not null, and the app does not count
    as disconnected 200 seconds after it. *)
Lemma failure_time_zero_reads_as_unset :
  let st1 := run titleCase_spec
                 [(at_ms 0, Mount); (at_ms 500, Closed)] constructed in
  let st2 := step titleCase_spec st1 (at_ms 5000, Errored) in
  disconnectedTime st1 = Some 0 /\
  disconnectedTime st2 = Some 5 /\
  seconds 200000 - 0 = 200 /\
  isAppDisconnected 200000 (disconnectedTime st1) = false.
Proof. now vm_compute. Qed.

(** C2 as stated fails on a name with a slash: uppercasing the first letter
    of [queue/Details] and prefixing [handle] gives [handleQueue/Details],
    which is no method of the instance, so an error line was to be logged;
    the code removes the slash, finds [handleQueueDetails] and dispatches. *)
Lemma slash_is_removed_from_handler_name :
  String.append "handle" (upperFirst "queue/Details") = "handleQueue/Details"%string /\
  this_method "handleQueue/Details" = None /\
  getHandlerName titleCase_spec (JStr "queue/Details") = Some "handleQueueDetails"%string /\
  effects (state_of (handleMessage titleCase_spec (at_ms 1700000000000)
                       (hub_message (JStr "queue/Details") JNull) constructed))
  = [Dispatch FetchQueueDetails].
Proof. now vm_compute. Qed.

Lemma message_handler_selection_witness :
  destructure (hub_message (JStr "health") JNull) = Some (JStr "health", JNull) /\
  titleCase_spec (JStr "health") = Some "Health"%string /\
  getHandlerName titleCase_spec (JStr "health") = Some "handleHealth"%string /\
  handleMessage titleCase_spec (at_ms 1700000000000)
                (hub_message (JStr "health") JNull) constructed
  = invoke titleCase_spec HandleHealth (at_ms 1700000000000) JNull constructed.
Proof.
  split; [reflexivity|]. split; [reflexivity|].
  apply (message_handler_selection titleCase_spec (at_ms 1700000000000)
           (hub_message (JStr "health") JNull) (JStr "health") JNull
           "Health" constructed); reflexivity.
Defined.

Lemma routing_depends_on_name_only_witness :
  destructure (hub_message (JStr "command") failed_command)
    = Some (JStr "command", failed_command) /\
  destructure (hub_message (JStr "command") started_command)
    = Some (JStr "command", started_command) /\
  handleMessage titleCase_spec (at_ms 1700000000000)
                (hub_message (JStr "command") failed_command) constructed
  = routed titleCase_spec (routing titleCase_spec (JStr "command"))
           (at_ms 1700000000000) (JStr "command") failed_command constructed /\
  handleMessage titleCase_spec (leaving 1700000060000)
                (hub_message (JStr "command") started_command)
                (mounted titleCase_spec no_flags "")
  = routed titleCase_spec (routing titleCase_spec (JStr "command"))
           (leaving 1700000060000) (JStr "command") started_command
           (mounted titleCase_spec no_flags "").
Proof.
  split; [reflexivity|]. split; [reflexivity|].
  apply (routing_depends_on_name_only titleCase_spec); reflexivity.
Defined.

Lemma command_message_dispatch_witness :
  titleCase_spec (JStr "command") = Some "Command"%string /\
  destructure (hub_message (JStr "command") failed_command)
    = Some (JStr "command", failed_command) /\
  getprop "action" failed_command = Some (JStr "updated") /\
  handleMessage titleCase_spec (at_ms 1700000000000)
                (hub_message (JStr "command") failed_command) constructed
  = Normal tt (add_effect
                 (Dispatch (FinishCommand
                              (JObj [("id", JNum 7); ("status", JStr "failed")]%string)))
                 constructed).
Proof.
  split; [reflexivity|]. split; [reflexivity|]. split; [reflexivity|].
  destruct (command_message_dispatch titleCase_spec (at_ms 1700000000000)
              (hub_message (JStr "command") failed_command) failed_command
              (JStr "updated") constructed eq_refl eq_refl eq_refl)
    as (Hroute & _ & Hother).
  rewrite Hroute.
  apply (Hother ltac:(discriminate)
           (JObj [("id", JNum 7); ("status", JStr "failed")]%string)
           (JStr "failed") eq_refl eq_refl).
  now right.
Defined.

(** * Further properties of the component *)

(** ** Effects that start no timer *)

Lemma passive_timerless es : Forall passive es -> timerless es.
Proof.
  apply Forall_impl. intros [] H; simpl in *; auto.
Qed.

Lemma starts_app es1 es2 : starts (es1 ++ es2) = (starts es1 + starts es2)%nat.
Proof.
  induction es1 as [|e es1 IH]; simpl; [reflexivity|].
  destruct e; simpl; now rewrite ?IH.
Qed.

Lemma passive_starts es : Forall passive es -> starts es = 0%nat.
Proof.
  induction 1 as [|e es He _ IH]; simpl; [reflexivity|].
  destruct e; simpl in *; auto; contradiction.
Qed.

Lemma passive_dispatched_nil es :
  Forall (fun e => match e with Dispatch _ => False | _ => True end) es ->
  dispatched es = [].
Proof.
  induction 1 as [|e es He _ IH]; simpl; [reflexivity|].
  destruct e; simpl in *; auto; contradiction.
Qed.

Lemma last_started_app es1 es2 :
  last_started (es1 ++ es2) =
  match last_started es2 with
  | Some id => Some id
  | None => last_started es1
  end.
Proof.
  induction es1 as [|e es1 IH]; simpl.
  - now destruct (last_started es2).
  - destruct e; simpl; try exact IH.
    rewrite IH. now destruct (last_started es2), (last_started es1).
Qed.

Lemma timerless_last_started es : timerless es -> last_started es = None.
Proof.
  induction 1 as [|e es He _ IH]; simpl; [reflexivity|].
  destruct e; simpl in *; auto; contradiction.
Qed.

Lemma timerless_In es id d : timerless es -> ~ In (SetTimeout id d) es.
Proof.
  intros Ht Hin. unfold timerless in Ht. rewrite Forall_forall in Ht.
  exact (Ht _ Hin).
Qed.

Lemma cancel_In id t ts : In t (cancel id ts) -> In t ts.
Proof. unfold cancel. intros H. now apply filter_In in H. Qed.

Lemma NoDup_map_cancel id ts :
  NoDup (map fst ts) -> NoDup (map fst (cancel id ts)).
Proof.
  unfold cancel. induction ts as [|[i d] ts IH]; simpl; intros Hn; [constructor|].
  inversion Hn as [|x l Hnot Hrest]; subst.
  destruct (Pos.eqb i id); simpl; [now apply IH|].
  constructor; [|now apply IH].
  intros Hin. apply Hnot.
  apply in_map_iff in Hin. destruct Hin as (t & Ht & Hin).
  apply in_map_iff. exists t. split; [assumption|].
  now apply filter_In in Hin.
Qed.

Lemma NoDup_snoc {A} (l : list A) x : NoDup l -> ~ In x l -> NoDup (l ++ [x]).
Proof.
  induction l as [|y l IH]; simpl; intros Hn Hx.
  - constructor; [auto|constructor].
  - inversion Hn as [|z l' Hy Hl]; subst. constructor.
    + rewrite in_app_iff. simpl. intros [H|[H|[]]]; [auto|subst; auto].
    + apply IH; auto.
Qed.

(** ** The timers the component holds *)

(** A listener that starts no timer keeps the timers consistent, whether it
    cancels one or not. *)
Lemma consistent_extend st st' es :
  timers_consistent st ->
  retryTimeoutId st' = retryTimeoutId st ->
  nextTimer st' = nextTimer st ->
  (forall t, In t (timers st') -> In t (timers st)) ->
  (NoDup (map fst (timers st)) -> NoDup (map fst (timers st'))) ->
  effects st' = effects st ++ es ->
  timerless es ->
  timers_consistent st'.
Proof.
  intros (Hlast & Hpend & Hbelow & Hnd) Hid Hnext Hsub Hnd' He Ht.
  repeat split.
  - rewrite Hid, He, last_started_app, (timerless_last_started es Ht). exact Hlast.
  - intros id d Hin. rewrite He. apply in_or_app. left. auto.
  - intros id d Hin. rewrite He in Hin. apply in_app_or in Hin.
    destruct Hin as [Hin|Hin]; [|now apply timerless_In in Hin].
    rewrite Hnext. eauto.
  - auto.
Qed.

Lemma consistent_retry env st :
  timers_consistent st -> timers_consistent (state_of (retryConnection env st)).
Proof.
  intros (Hlast & Hpend & Hbelow & Hnd). rewrite retryConnection_eq. simpl.
  repeat split; simpl.
  - now rewrite last_started_app.
  - intros id d Hin. apply in_app_or in Hin. apply in_or_app.
    destruct Hin as [Hin|[Hin|[]]]; [left; auto|right].
    injection Hin as <- <-. now left.
  - intros id d Hin. apply in_app_or in Hin.
    destruct Hin as [Hin|[Hin|[]]].
    + apply Hbelow in Hin. lia.
    + injection Hin as <- <-. lia.
  - rewrite map_app. simpl. apply NoDup_snoc; [assumption|].
    intros Hin. apply in_map_iff in Hin. destruct Hin as ([i d] & Hi & Hin).
    simpl in Hi. subst i. apply Hpend, Hbelow in Hin. lia.
Qed.

Section Timers.

Variable titleCase : JSValue -> option string.

Lemma quiet_consistent {A} (c : M A) st :
  quiet c -> timers_consistent st -> timers_consistent (state_of (c st)).
Proof.
  intros Hq Hc. destruct (Hq st) as (es & Hp & E).
  apply (consistent_extend st _ es Hc); rewrite ?E; simpl; auto.
  now apply passive_timerless.
Qed.

Ltac extend_with es :=
  match goal with
  | Hc : timers_consistent ?st |- timers_consistent ?st' =>
      apply (consistent_extend st st' es Hc); simpl;
      [ reflexivity | reflexivity
      | solve [auto | intros t; apply cancel_In]
      | solve [auto | apply NoDup_map_cancel]
      | rewrite <- ?app_assoc; simpl; rewrite ?app_nil_r; reflexivity
      | repeat constructor ]
  end.

Lemma onClose_unfold env st :
  onClose env st =
  let logged := add_effect (Console LDebug "[signalR] connection closed" []) st in
  if unloading env then Normal tt logged
  else retryConnection env
         (if falsy_time (disconnectedTime st)
          then set_disconnectedTime (Some (seconds (now env))) logged
          else logged).
Proof.
  unfold onClose, bind; simpl. destruct (unloading env); [reflexivity|].
  change (disconnectedTime (add_effect (Console LDebug "[signalR] connection closed" []) st))
    with (disconnectedTime st).
  now destruct (falsy_time (disconnectedTime st)).
Qed.

Lemma onError_unfold env st :
  onError env st =
  let logged := add_effect (Console LDebug "[signalR] connection error" []) st in
  if unloading env then Normal tt logged
  else retryConnection env
         (if falsy_time (disconnectedTime st)
          then set_disconnectedTime (Some (seconds (now env))) logged
          else logged).
Proof.
  unfold onError, bind; simpl. destruct (unloading env); [reflexivity|].
  change (disconnectedTime (add_effect (Console LDebug "[signalR] connection error" []) st))
    with (disconnectedTime st).
  now destruct (falsy_time (disconnectedTime st)).
Qed.

Lemma step_consistent st occ :
  timers_consistent st -> timers_consistent (step titleCase st occ).
Proof.
  intros Hc. destruct occ as [env ev]. unfold step; simpl.
  destruct ev; simpl.
  - (* Mount *)
    extend_with [Console LLog "[signalR] starting" []; HubOnClose;
                 HubOn "receiveVersion"; HubOn "receiveMessage"; HubStart].
  - (* Unmount *)
    unfold componentWillUnmount, bind; simpl.
    destruct (connection st); simpl;
      [extend_with [HubStop]|extend_with (@nil Effect)].
  - (* Connected *)
    unfold onConnected, bind; simpl.
    destruct (isReconnecting (props env) || isDisconnected (props env))%bool;
      simpl; destruct (retryTimeoutId st) as [id|] eqn:Eid; simpl.
    + apply (consistent_extend st _
               ([Console LDebug "[signalR] connected" []] ++ refetch ++
                [Dispatch (setAppValue (mkAttrs (Some true) (Some false)
                                                (Some false) (Some false)));
                 ClearTimeout id]) Hc); simpl;
        [ now rewrite Eid | reflexivity | intros t; apply cancel_In
        | apply NoDup_map_cancel | now rewrite <- !app_assoc
        | repeat constructor ].
    + apply (consistent_extend st _
               ([Console LDebug "[signalR] connected" []] ++ refetch ++
                [Dispatch (setAppValue (mkAttrs (Some true) (Some false)
                                                (Some false) (Some false)))]) Hc);
        simpl;
        [ now rewrite Eid | reflexivity | auto | auto
        | now rewrite <- !app_assoc | repeat constructor ].
    + apply (consistent_extend st _
               [Console LDebug "[signalR] connected" [];
                Dispatch (setAppValue (mkAttrs (Some true) (Some false)
                                               (Some false) (Some false)));
                ClearTimeout id] Hc); simpl;
        [ now rewrite Eid | reflexivity | intros t; apply cancel_In
        | apply NoDup_map_cancel | now rewrite <- !app_assoc
        | repeat constructor ].
    + apply (consistent_extend st _
               [Console LDebug "[signalR] connected" [];
                Dispatch (setAppValue (mkAttrs (Some true) (Some false)
                                               (Some false) (Some false)))] Hc);
        simpl;
        [ now rewrite Eid | reflexivity | auto | auto
        | now rewrite <- !app_assoc | repeat constructor ].
  - (* Errored *)
    rewrite onError_unfold. cbv zeta. destruct (unloading env).
    + simpl. extend_with [Console LDebug "[signalR] connection error" []].
    + apply consistent_retry.
      destruct (falsy_time (disconnectedTime st));
        extend_with [Console LDebug "[signalR] connection error" []].
  - (* Closed *)
    rewrite onClose_unfold. cbv zeta. destruct (unloading env).
    + simpl. extend_with [Console LDebug "[signalR] connection closed" []].
    + apply consistent_retry.
      destruct (falsy_time (disconnectedTime st));
        extend_with [Console LDebug "[signalR] connection closed" []].
  - (* TimerElapsed *)
    unfold elapse, bind; simpl. destruct (pending id st); simpl;
      [|extend_with (@nil Effect)].
    unfold retryTimeoutCallback, startConnection, bind; simpl.
    destruct (connection st); simpl;
      [extend_with [HubStart]|extend_with (@nil Effect)].
  - now apply quiet_consistent; [apply quiet_onReceiveMessage|].
  - now apply quiet_consistent; [apply quiet_onReceiveVersion|].
Qed.

Lemma constructed_consistent : timers_consistent constructed.
Proof.
  repeat split; simpl; try contradiction. constructor.
Qed.

(** X1: whatever has happened to the component since its construction, the
    field [retryTimeoutId] holds the identifier of the timer that was started
    last (null exactly when none was ever started: it is never reset),
    every pending timer is one that [retryConnection] started, and no two
    pending timers share an identifier. *)
Theorem retry_timer_bookkeeping trace :
  let st := run titleCase trace constructed in
  retryTimeoutId st = last_started (effects st) /\
  (forall id d, In (id, d) (timers st) -> In (SetTimeout id d) (effects st)) /\
  (forall id d, In (SetTimeout id d) (effects st) -> (id < nextTimer st)%positive) /\
  NoDup (map fst (timers st)).
Proof.
  assert (H : forall tr st, timers_consistent st ->
                            timers_consistent (run titleCase tr st)).
  { induction tr as [|occ tr IH]; intros st Hc; simpl; [assumption|].
    apply IH. now apply step_consistent. }
  exact (H trace constructed constructed_consistent).
Qed.

End Timers.

(** ** What each kind of event can do *)

Lemma cancel_length id ts : (List.length (cancel id ts) <= List.length ts)%nat.
Proof. unfold cancel. apply filter_length_le. Qed.

Lemma cancel_pending_length id ts :
  existsb (fun t : positive * Z => Pos.eqb (fst t) id) ts = true ->
  (List.length (cancel id ts) < List.length ts)%nat.
Proof.
  induction ts as [|[i d] ts IH]; simpl; [discriminate|].
  destruct (Pos.eqb i id) eqn:E; simpl; intros H.
  - pose proof (cancel_length id ts). unfold cancel in *. lia.
  - apply IH in H. unfold cancel in *. lia.
Qed.

Section Events.

Variable titleCase : JSValue -> option string.

(** X2: a message from the hub, generic or version, never touches the
    connection, the retry interval, the failure time or a timer, whatever it
    carries and whether its handler completes or raises: all it can do is
    write to the console, dispatch to the store and repopulate the page. *)
Theorem messages_leave_the_connection_alone env message st :
  (exists es, Forall passive es /\
              only_adds es st (step titleCase st (env, ReceiveMessage message))) /\
  (exists es, Forall passive es /\
              only_adds es st (step titleCase st (env, ReceiveVersion message))).
Proof.
  split.
  - destruct (quiet_onReceiveMessage titleCase env message st) as (es & Hp & E).
    exists es. split; [assumption|exact E].
  - destruct (quiet_onReceiveVersion message st) as (es & Hp & E).
    exists es. split; [assumption|exact E].
Qed.

Lemma silent_step env ev st :
  silent_event ev = true ->
  dispatched (effects (step titleCase st (env, ev))) = dispatched (effects st).
Proof.
  intros Hs. unfold step; simpl. destruct ev; try discriminate; simpl.
  - rewrite !dispatched_app. simpl. now rewrite !app_nil_r.
  - unfold componentWillUnmount, bind; simpl.
    destruct (connection st); simpl; [|reflexivity].
    rewrite dispatched_app. simpl. now rewrite app_nil_r.
  - rewrite onError_unfold. cbv zeta. destruct (unloading env).
    + simpl. rewrite dispatched_app. simpl. now rewrite app_nil_r.
    + rewrite retryConnection_eq. simpl.
      destruct (falsy_time (disconnectedTime st)); simpl;
        rewrite !dispatched_app; simpl; now rewrite !app_nil_r.
  - rewrite onClose_unfold. cbv zeta. destruct (unloading env).
    + simpl. rewrite dispatched_app. simpl. now rewrite app_nil_r.
    + rewrite retryConnection_eq. simpl.
      destruct (falsy_time (disconnectedTime st)); simpl;
        rewrite !dispatched_app; simpl; now rewrite !app_nil_r.
  - unfold elapse, bind; simpl. destruct (pending id st); simpl; [|reflexivity].
    unfold retryTimeoutCallback, startConnection, bind; simpl.
    destruct (connection st); simpl; [|reflexivity].
    rewrite dispatched_app. simpl. now rewrite app_nil_r.
Qed.

(** X3: mounting, unmounting, a close, an error and a retry timer never send
    anything to the store: over any run of such events the actions the store
    has received stay what they were.  Only a successful connection and a
    message from the hub dispatch. *)
Theorem only_connect_and_messages_dispatch trace : forall st,
  Forall (fun occ : Env * Event => silent_event (snd occ) = true) trace ->
  dispatched (effects (run titleCase trace st)) = dispatched (effects st).
Proof.
  induction trace as [|[env ev] trace IH]; intros st Hall; simpl; [reflexivity|].
  inversion Hall as [|occ rest Hev Hrest]; subst.
  rewrite (IH _ Hrest). now apply silent_step.
Qed.

(** X4: [connection.start()] is called by mounting, once, and by a pending
    retry timer that elapses while the component holds a connection, once;
    no other event calls it, and a timer that elapses after unmounting does
    not. *)
Theorem connection_attempts env ev st :
  starts (effects (step titleCase st (env, ev))) =
  (starts (effects st) +
   match ev with
   | Mount => 1
   | TimerElapsed id =>
       if pending id st
       then match connection st with Some _ => 1 | None => 0 end
       else 0
   | _ => 0
   end)%nat.
Proof.
  unfold step; simpl. destruct ev; simpl.
  - rewrite !starts_app. simpl. lia.
  - unfold componentWillUnmount, bind; simpl.
    destruct (connection st); simpl; rewrite ?starts_app; simpl; lia.
  - unfold onConnected, bind; simpl.
    destruct (isReconnecting (props env) || isDisconnected (props env))%bool;
      simpl; destruct (retryTimeoutId st); simpl;
      rewrite !starts_app; simpl; lia.
  - rewrite onError_unfold. cbv zeta. destruct (unloading env).
    + simpl. rewrite starts_app. simpl. lia.
    + rewrite retryConnection_eq. simpl.
      destruct (falsy_time (disconnectedTime st)); simpl;
        rewrite !starts_app; simpl; lia.
  - rewrite onClose_unfold. cbv zeta. destruct (unloading env).
    + simpl. rewrite starts_app. simpl. lia.
    + rewrite retryConnection_eq. simpl.
      destruct (falsy_time (disconnectedTime st)); simpl;
        rewrite !starts_app; simpl; lia.
  - unfold elapse, bind; simpl. destruct (pending id st); simpl; [|lia].
    unfold retryTimeoutCallback, startConnection, bind; simpl.
    destruct (connection st); simpl; rewrite ?starts_app; simpl; lia.
  - destruct (quiet_onReceiveMessage titleCase env message st) as (es & Hp & E).
    rewrite E. simpl. rewrite starts_app, (passive_starts es Hp). lia.
  - destruct (quiet_onReceiveVersion message st) as (es & Hp & E).
    rewrite E. simpl. rewrite starts_app, (passive_starts es Hp). lia.
Qed.

End Events.

(** ** Unloading and reconnection *)

Section Unloading.

Variable titleCase : JSValue -> option string.

Lemma delays_passive es : Forall passive es -> delays es = [].
Proof.
  induction 1 as [|e es He _ IH]; simpl; [reflexivity|].
  destruct e; simpl in *; auto; contradiction.
Qed.

Lemma unloading_step st occ :
  while_unloading occ ->
  let st' := step titleCase st occ in
  delays (effects st') = delays (effects st) /\
  (starts (effects st') + List.length (timers st')
   <= starts (effects st) + List.length (timers st))%nat.
Proof.
  destruct occ as [env ev]. intros [Hu Hm]; simpl in Hu, Hm.
  unfold step; simpl. destruct ev; simpl.
  - now elim Hm.
  - unfold componentWillUnmount, bind; simpl.
    destruct (connection st); simpl;
      rewrite ?delays_app, ?starts_app; simpl; rewrite ?app_nil_r; split;
      try reflexivity; lia.
  - unfold onConnected, bind; simpl.
    destruct (isReconnecting (props env) || isDisconnected (props env))%bool;
      simpl; destruct (retryTimeoutId st) as [id|]; simpl;
      rewrite !delays_app, !starts_app; simpl; rewrite ?app_nil_r;
      (split; [reflexivity|]);
      try (pose proof (cancel_length id (timers st))); lia.
  - rewrite onError_unfold, Hu. simpl.
    rewrite delays_app, starts_app. simpl. rewrite app_nil_r. split; [reflexivity|lia].
  - rewrite onClose_unfold, Hu. simpl.
    rewrite delays_app, starts_app. simpl. rewrite app_nil_r. split; [reflexivity|lia].
  - unfold elapse, bind; simpl. destruct (pending id st) eqn:Hp; simpl;
      [|split; [reflexivity|lia]].
    pose proof (cancel_pending_length id (timers st) Hp).
    unfold retryTimeoutCallback, startConnection, bind; simpl.
    destruct (connection st); simpl;
      rewrite ?delays_app, ?starts_app; simpl; rewrite ?app_nil_r;
      (split; [reflexivity|lia]).
  - destruct (quiet_onReceiveMessage titleCase env message st) as (es & Hp & E).
    rewrite E. simpl.
    rewrite delays_app, starts_app, (delays_passive es Hp), (passive_starts es Hp).
    rewrite app_nil_r. split; [reflexivity|lia].
  - destruct (quiet_onReceiveVersion message st) as (es & Hp & E).
    rewrite E. simpl.
    rewrite delays_app, starts_app, (delays_passive es Hp), (passive_starts es Hp).
    rewrite app_nil_r. split; [reflexivity|lia].
Qed.

(** X5: once the page is unloading, and as long as the component is not
    mounted again, no timer is started any more, and the connection attempts
    still made are at most as many as the timers that were pending when the
    unloading began: the retry loop dies out. *)
Theorem retries_die_out_while_unloading trace : forall st,
  Forall while_unloading trace ->
  let st' := run titleCase trace st in
  delays (effects st') = delays (effects st) /\
  (starts (effects st') + List.length (timers st')
   <= starts (effects st) + List.length (timers st))%nat.
Proof.
  induction trace as [|occ trace IH]; intros st Hall; simpl; [split; [reflexivity|lia]|].
  inversion Hall as [|o rest Hocc Hrest]; subst.
  destruct (unloading_step st occ Hocc) as [Hd Hs].
  destruct (IH (step titleCase st occ) Hrest) as [Hd' Hs'].
  split; [now rewrite Hd', Hd|lia].
Qed.

(** X6: after a successful connection the backoff resumes from 5 seconds:
    over a run of consecutive failures of a component that holds its
    connection, retry number [k] after the connection waits as retry number
    [k + 4] of a fresh component does, that is 5, 6, ... and then 10 seconds;
    the connection itself starts no timer. *)
Theorem backoff_after_reconnection p base env st hub failures :
  connection st = Some hub ->
  let st' := fold_left (failed_attempt titleCase p base) failures
                       (state_of (onConnected env st)) in
  retryInterval st' = Z.min (Z.of_nat (List.length failures) + 5) 10 /\
  delays (effects st') =
  delays (effects st) ++ map backoff (seq 4 (List.length failures)).
Proof.
  intros Hc.
  assert (Hconn : connection (state_of (onConnected env st)) = Some hub).
  { unfold onConnected, bind; simpl.
    destruct (isReconnecting (props env) || isDisconnected (props env))%bool;
      simpl; now destruct (retryTimeoutId st). }
  assert (Hint : retryInterval (state_of (onConnected env st)) = 5).
  { unfold onConnected, bind; simpl.
    destruct (isReconnecting (props env) || isDisconnected (props env))%bool;
      simpl; now destruct (retryTimeoutId st). }
  assert (Hdel : delays (effects (state_of (onConnected env st)))
                 = delays (effects st)).
  { unfold onConnected, bind; simpl.
    destruct (isReconnecting (props env) || isDisconnected (props env))%bool;
      simpl; destruct (retryTimeoutId st); simpl;
      rewrite !delays_app; simpl; now rewrite !app_nil_r. }
  destruct (failures_from titleCase p base failures
              (state_of (onConnected env st)) hub 4 Hconn)
    as [Hr Hd]; [rewrite Hint; reflexivity|].
  split.
  - rewrite Hr. lia.
  - now rewrite Hd, Hdel.
Qed.

End Unloading.

(** ** Retries during unload *)

Section Retries_during_unload.

Variable titleCase : JSValue -> option string.

Lemma unloading_step_starts_no_timer st occ :
  unloading (fst occ) = true ->
  delays (effects (step titleCase st occ)) = delays (effects st).
Proof.
  destruct occ as [env ev]. simpl. intros Hu.
  assert (Hother : snd (env, ev) <> Mount ->
                   delays (effects (step titleCase st (env, ev))) = delays (effects st)).
  { intros Hm. apply (unloading_step titleCase st (env, ev)). now split. }
  destruct ev; try (apply Hother; discriminate).
  unfold step; simpl. rewrite !delays_app. simpl. now rewrite !app_nil_r.
Qed.

(** C8 (as amended): while the page is unloading, a close or an error is a
    no-op apart from its console line: no failure time is recorded, no retry
    is scheduled and nothing is dispatched; and over any run of events that
    all happen while the page is unloading no timer is started at all: the
    component never schedules a new retry during unload. *)
Theorem unloading_schedules_no_retry :
  (forall env st,
      unloading env = true ->
      onClose env st =
        Normal tt (add_effect (Console LDebug "[signalR] connection closed" []) st) /\
      onError env st =
        Normal tt (add_effect (Console LDebug "[signalR] connection error" []) st)) /\
  (forall trace st,
      Forall (fun occ : Env * Event => unloading (fst occ) = true) trace ->
      delays (effects (run titleCase trace st)) = delays (effects st)).
Proof.
  split; [exact close_or_error_while_unloading|].
  induction trace as [|occ trace IH]; intros st Hall; simpl; [reflexivity|].
  inversion Hall as [|o rest Hocc Hrest]; subst.
  rewrite (IH _ Hrest). now apply unloading_step_starts_no_timer.
Qed.

(** ** The failure time in whole seconds *)

(** C9 (as amended): the failure time is the clock in whole seconds at the
    first failure since the last connection.  While it is null, a close or
    an error outside unload sets it and nothing else does; a failure time
    that is held is kept by every event but a successful connection, which
    resets it to null.  The app counts as disconnected exactly when a
    failure time is held and the clock in whole seconds exceeds it by more
    than 180, that is from 181 seconds after the recorded second on.  The
    failure time 0 is left aside throughout. *)
Theorem failure_time_in_whole_seconds :
  (forall env ev st,
      disconnectedTime st = None ->
      disconnectedTime (step titleCase st (env, ev)) =
      match ev with
      | Closed | Errored =>
          if unloading env then None else Some (seconds (now env))
      | _ => None
      end) /\
  (forall env ev st t,
      disconnectedTime st = Some t -> t <> 0 ->
      disconnectedTime (step titleCase st (env, ev)) =
      match ev with
      | Connected => None
      | _ => Some t
      end) /\
  (forall trace st t,
      disconnectedTime st = Some t -> t <> 0 ->
      Forall (fun occ : Env * Event => snd occ <> Connected) trace ->
      disconnectedTime (run titleCase trace st) = Some t) /\
  (forall ms, isAppDisconnected ms None = false) /\
  (forall ms t,
      t <> 0 ->
      (isAppDisconnected ms (Some t) = true <-> seconds ms - t > 180) /\
      (isAppDisconnected ms (Some t) = true <-> (t + 181) * 1000 <= ms)).
Proof.
  split; [|split; [|split; [|split; [reflexivity|]]]].
  - intros env ev st Hd. rewrite step_disconnectedTime, Hd. simpl.
    rewrite andb_true_r. destruct ev; try reflexivity;
      now destruct (unloading env).
  - intros env ev st t Hd Ht. rewrite step_disconnectedTime, Hd. simpl.
    apply Z.eqb_neq in Ht. rewrite Ht, andb_false_r.
    now destruct ev.
  - intros trace st t. apply first_failure_time_kept.
  - intros ms t Ht.
    assert (Hs : isAppDisconnected ms (Some t) = true <-> seconds ms - t > 180).
    { rewrite isAppDisconnected_true. split.
      - intros (t' & E & _ & H). now injection E as <-.
      - intros H. now exists t. }
    split; [exact Hs|]. rewrite Hs. unfold seconds.
    split; intros H; Z.to_euclidean_division_equations; lia.
Qed.

End Retries_during_unload.

(** ** Handler names *)

Lemma substring_all s : String.substring 0 (String.length s) s = s.
Proof.
  induction s as [|c s IH]; simpl; [reflexivity|now rewrite IH].
Qed.

Lemma replace_slash_cons c s :
  replace "/" "" (String c s) =
  if Ascii.eqb c "/" then s else String c (replace "/" "" s).
Proof.
  cbn [replace String.prefix String.length].
  destruct (ascii_dec "/" c) as [E|E].
  - subst c. rewrite Ascii.eqb_refl.
    cbn [String.length Nat.sub String.append String.substring].
    rewrite Nat.sub_0_r, substring_all. now destruct s.
  - destruct (Ascii.eqb_spec c "/") as [E'|E']; [now elim E|reflexivity].
Qed.

Lemma replace_without_slash s : has_slash s = false -> replace "/" "" s = s.
Proof.
  induction s as [|c s IH]; [reflexivity|].
  simpl has_slash. rewrite replace_slash_cons.
  destruct (Ascii.eqb c "/"); simpl; [discriminate|].
  intros H. now rewrite IH.
Qed.

Lemma replace_first_slash a b :
  has_slash a = false ->
  replace "/" "" (String.append a (String "/" b)) = String.append a b.
Proof.
  induction a as [|c a IH].
  - intros _. simpl String.append. now rewrite replace_slash_cons.
  - simpl has_slash. simpl String.append. rewrite replace_slash_cons.
    destruct (Ascii.eqb c "/"); simpl; [discriminate|].
    intros H. now rewrite IH.
Qed.

Lemma has_slash_append a b :
  has_slash (String.append a b) = (has_slash a || has_slash b)%bool.
Proof.
  induction a as [|c a IH]; simpl; [reflexivity|].
  now rewrite IH, orb_assoc.
Qed.

(** No property of the instance has a slash in its name. *)
Lemma slash_finds_no_method key : has_slash key = true -> this_method key = None.
Proof.
  intros Hs. unfold this_method, method_table, lookup_method.
  repeat match goal with
         | |- context [String.eqb ?k key] =>
             destruct (String.eqb_spec k key) as [E|_];
             [rewrite <- E in Hs; vm_compute in Hs; discriminate|]
         end.
  reflexivity.
Qed.

Section Handler_names.

Variable titleCase : JSValue -> option string.

(** X7: of the name the title-casing helper returns, [getHandlerName]
    removes the first slash and no other character: a name without slash is
    prefixed as it is, and [a/b] with no slash in [a] gives [handle]
    followed by [a] and [b], later slashes kept. *)
Theorem handler_name_drops_first_slash name :
  (forall title, titleCase name = Some title -> has_slash title = false ->
                 getHandlerName titleCase name = Some (String.append "handle" title)) /\
  (forall a b, titleCase name = Some (String.append a (String "/" b)) ->
               has_slash a = false ->
               getHandlerName titleCase name
               = Some (String.append "handle" (String.append a b))) /\
  (titleCase name = None -> getHandlerName titleCase name = None).
Proof.
  unfold getHandlerName. repeat split.
  - intros title Ht Hs. now rewrite Ht, (replace_without_slash title Hs).
  - intros a b Ht Hs. now rewrite Ht, (replace_first_slash a b Hs).
  - now intros ->.
Qed.

(** X8: a message whose title-cased name holds two slashes or more has no
    handler: only the first slash is removed, and no method of the instance
    has a slash in its name, so the error line is logged and nothing else
    happens. *)
Theorem second_slash_finds_no_handler env message name body a b st :
  destructure message = Some (name, body) ->
  titleCase name = Some (String.append a (String "/" b)) ->
  has_slash a = false ->
  has_slash b = true ->
  handleMessage titleCase env message st = Normal tt (add_effect (no_handler name) st).
Proof.
  intros Hd Ht Ha Hb.
  rewrite (handleMessage_routed titleCase env message name body st Hd).
  unfold routing, getHandlerName.
  rewrite Ht, (replace_first_slash a b Ha).
  rewrite slash_finds_no_method; [reflexivity|].
  simpl. rewrite has_slash_append, Hb. now rewrite orb_true_r.
Qed.

End Handler_names.

(** ** The handlers *)

Section Handlers.

Variable titleCase : JSValue -> option string.

Lemma field_app k a b :
  field k (a ++ b) = if has_key k a then field k a else field k b.
Proof.
  induction a as [|[k' v] a IH]; simpl; [reflexivity|].
  destruct (String.eqb k' k); simpl; [reflexivity|exact IH].
Qed.

(** What the store reads in the payload of an [updateItem]. *)
Lemma updateItem_payload k literal v :
  getprop k (payload (UpdateItem literal v)) = Some (spread_reads k literal v).
Proof.
  unfold spread_reads, payload, getprop, object_spread. now rewrite field_app.
Qed.

(** X9: the calendar, album, track, cutoff and missing handlers forward an
    updated resource and nothing else: when the action of the body is
    ['updated'] exactly one [updateItem] is dispatched, its payload being the
    object [{ section, updateOnly: true, ...resource }] with the section of
    the handler, in which every key reads the property of the resource if
    the resource has one of that name (a resource that carries [section] or
    [updateOnly] overrides what the handler wrote) and the property the
    handler wrote otherwise; for every other action, ['deleted'] included,
    nothing at all happens. *)
Theorem update_only_handlers m section env body action resource st :
  update_section m = Some section ->
  getprop "action" body = Some action ->
  getprop "resource" body = Some resource ->
  (action = JStr "updated" ->
   invoke titleCase m env body st =
   Normal tt (add_effect
                (Dispatch (UpdateItem [("section", JStr section);
                                       ("updateOnly", JBool true)]%string resource))
                st) /\
   forall k,
     getprop k (payload (UpdateItem [("section", JStr section);
                                     ("updateOnly", JBool true)]%string resource))
     = Some (spread_reads k [("section", JStr section);
                             ("updateOnly", JBool true)]%string resource)) /\
  (action <> JStr "updated" -> invoke titleCase m env body st = Normal tt st).
Proof.
  intros Hm Ha Hr. split.
  - intros ->. split; [|intros k; apply updateItem_payload].
    destruct m; try discriminate; injection Hm as <-;
      unfold invoke, call_method, handleCalendar, handleAlbum, handleTrack,
        handleWantedCutoff, handleWantedMissing, bind, prop;
      rewrite Ha; simpl; now rewrite Hr.
  - intros Hn. apply strict_eq_str_false in Hn.
    destruct m; try discriminate;
      unfold invoke, call_method, handleCalendar, handleAlbum, handleTrack,
        handleWantedCutoff, handleWantedMissing, bind, prop;
      rewrite Ha; simpl; now rewrite Hn.
Qed.

(** X10: for ['updated'] the artist handler dispatches one [updateItem]
    whose payload is [{ section: 'artist', ...resource }]: every key reads
    the property of the resource if it has one of that name, [section]
    included, and [section] reads ['artist'] otherwise.  For ['deleted'] it
    dispatches [removeItem] with the section ['artist'] and the id of the
    resource; a ['deleted'] without resource raises and dispatches nothing;
    every other action does nothing. *)
Theorem artist_handler env body action resource st :
  getprop "action" body = Some action ->
  getprop "resource" body = Some resource ->
  (action = JStr "updated" ->
   invoke titleCase HandleArtist env body st =
   Normal tt (add_effect
                (Dispatch (UpdateItem [("section", JStr "artist")]%string resource)) st) /\
   forall k,
     getprop k (payload (UpdateItem [("section", JStr "artist")]%string resource))
     = Some (spread_reads k [("section", JStr "artist")]%string resource)) /\
  (action = JStr "deleted" ->
   invoke titleCase HandleArtist env body st =
   match getprop "id" resource with
   | Some id => Normal tt (add_effect (Dispatch (RemoveItem "artist" id)) st)
   | None => Throw st
   end) /\
  (action <> JStr "updated" -> action <> JStr "deleted" ->
   invoke titleCase HandleArtist env body st = Normal tt st).
Proof.
  intros Ha Hr.
  unfold invoke, call_method, handleArtist, bind, prop. rewrite Ha; simpl.
  split; [|split].
  - intros ->. simpl. rewrite Hr. split; [reflexivity|].
    intros k. apply updateItem_payload.
  - intros ->. simpl. rewrite Hr; simpl. now destruct (getprop "id" resource).
  - intros Hu Hd.
    now rewrite (strict_eq_str_false _ _ Hu), (strict_eq_str_false _ _ Hd).
Qed.

(** X11: the track file handler repopulates the page, with the reason
    ['trackFileUpdated'], after every message it handles without raising:
    after the [updateItem] of an ['updated'], after the [removeItem] of a
    ['deleted'], and alone for every other action.  A ['deleted'] without
    resource raises before the page is repopulated. *)
Theorem trackfile_handler env body action resource st :
  getprop "action" body = Some action ->
  getprop "resource" body = Some resource ->
  let repopulate := RepopulatePage (Some "trackFileUpdated"%string) in
  (action = JStr "updated" ->
   invoke titleCase HandleTrackfile env body st =
   Normal tt (add_effect repopulate
                (add_effect
                   (Dispatch (UpdateItem [("section", JStr "trackFiles")]%string
                                         resource)) st))) /\
  (action = JStr "deleted" ->
   invoke titleCase HandleTrackfile env body st =
   match getprop "id" resource with
   | Some id =>
       Normal tt (add_effect repopulate
                    (add_effect (Dispatch (RemoveItem "trackFiles" id)) st))
   | None => Throw st
   end) /\
  (action <> JStr "updated" -> action <> JStr "deleted" ->
   invoke titleCase HandleTrackfile env body st = Normal tt (add_effect repopulate st)).
Proof.
  intros Ha Hr.
  unfold invoke, call_method, handleTrackfile, bind, prop. rewrite Ha; simpl.
  repeat split.
  - intros ->. simpl. now rewrite Hr.
  - intros ->. simpl. rewrite Hr; simpl. now destruct (getprop "id" resource).
  - intros Hu Hd.
    now rewrite (strict_eq_str_false _ _ Hu), (strict_eq_str_false _ _ Hd).
Qed.

(** X12: a body that is null or undefined makes every handler that reads
    its body raise before it has done anything, [handleMessage] included; the
    health, queue, queue details, system task and root folder handlers never
    look at the body: they complete, with the same result for every body. *)
Theorem handlers_and_missing_bodies m env st :
  if reads_body m
  then forall body, nullish body = true ->
                    invoke titleCase m env body st = Throw st
  else forall body,
         invoke titleCase m env body st = invoke titleCase m env JUndefined st /\
         exists st', invoke titleCase m env body st = Normal tt st'.
Proof.
  destruct m; simpl;
    try (intros body Hn; destruct body; try discriminate; reflexivity);
    try (intros body; split; [reflexivity|eexists; reflexivity]).
  intros body. split; [reflexivity|].
  unfold invoke, call_method, handleQueue.
  destruct (isQueuePopulated (props env)); eexists; reflexivity.
Qed.

(** X13: neither version path checks that the body names a version.  The
    generic message reads the key [Version], the [receiveVersion] message the
    key [version]; each dispatches [setVersion] with what the body binds to
    its key, [undefined] when the body is an object without it, and raises,
    dispatching nothing, when there is no body. *)
Theorem version_handlers env message body st :
  getprop "body" message = Some body ->
  match body with
  | JUndefined | JNull =>
      invoke titleCase HandleVersion env body st = Throw st /\
      onReceiveVersion message st = Throw st
  | JObj fields =>
      invoke titleCase HandleVersion env body st =
        Normal tt (add_effect (Dispatch (SetVersion (field "Version" fields))) st) /\
      onReceiveVersion message st =
        Normal tt (add_effect (Dispatch (SetVersion (field "version" fields))) st)
  | _ =>
      invoke titleCase HandleVersion env body st =
        Normal tt (add_effect (Dispatch (SetVersion JUndefined)) st) /\
      onReceiveVersion message st =
        Normal tt (add_effect (Dispatch (SetVersion JUndefined)) st)
  end.
Proof.
  intros Hb. unfold onReceiveVersion, bind, prop. rewrite Hb; simpl.
  destruct body; split; reflexivity.
Qed.

End Handlers.

(** ** Lifecycle *)

(** X14: unmounting stops the hub and forgets it but cancels no timer.  A
    retry timer that elapses afterwards finds no connection and raises: no
    connection attempt is started and the retry interval stays as it was. *)
Theorem timer_after_unmount st hub id :
  connection st = Some hub ->
  pending id st = true ->
  let st1 := state_of (componentWillUnmount st) in
  let st2 := state_of (elapse id st1) in
  componentWillUnmount st = Normal tt st1 /\
  connection st1 = None /\
  timers st1 = timers st /\
  elapse id st1 = Throw st2 /\
  retryInterval st2 = retryInterval st /\
  effects st2 = effects st ++ [HubStop] /\
  timers st2 = cancel id (timers st).
Proof.
  intros Hc Hp. unfold componentWillUnmount, bind; simpl. rewrite Hc; simpl.
  unfold elapse, bind; simpl.
  change (pending id (add_effect HubStop st)) with (pending id st).
  unfold pending in *; simpl. rewrite Hp; simpl.
  now repeat split.
Qed.

(** X15: mounting always completes: it builds the hub for
    [urlBase/signalr/messages], registers the close listener and the two
    message listeners and then starts the connection, whatever state the
    component was in.  Unmounting right after gives back the component as it
    was before, without connection, with these calls and the stop of the hub
    added; unmounting a component that holds no connection raises. *)
Theorem mount_then_unmount env st :
  let st1 := state_of (componentDidMount env st) in
  componentDidMount env st = Normal tt st1 /\
  connection st1 = Some (String.append (urlBase env) "/signalr/messages") /\
  only_adds [Console LLog "[signalR] starting" []; HubOnClose;
             HubOn "receiveVersion"; HubOn "receiveMessage"; HubStart; HubStop]
            (set_connection None st)
            (state_of (componentWillUnmount st1)) /\
  (connection st = None -> componentWillUnmount st = Throw st).
Proof.
  split; [reflexivity|]. split; [reflexivity|]. split.
  - unfold only_adds, componentWillUnmount, componentDidMount, bind; simpl.
    unfold set_connection, add_effect; simpl. now rewrite <- !app_assoc.
  - intros Hc. unfold componentWillUnmount, bind; simpl. now rewrite Hc.
Qed.

(** ** The outage threshold *)

(** X16: with a failure time [t] other than 0, the app counts as
    disconnected from clock reading [(t + 181) * 1000] ms on and never
    before: the test is on whole seconds, so it first holds 181 seconds after
    the second in which the failure was recorded.  Without failure time it
    never holds, and once it holds it keeps holding as the clock advances. *)
Theorem disconnected_from_181_seconds_on ms :
  (forall t, t <> 0 ->
             (isAppDisconnected ms (Some t) = true <-> (t + 181) * 1000 <= ms)) /\
  isAppDisconnected ms None = false /\
  (forall ms' d, ms <= ms' ->
                 isAppDisconnected ms d = true -> isAppDisconnected ms' d = true).
Proof.
  split; [|split; [reflexivity|]].
  - intros t Ht. rewrite isAppDisconnected_true. unfold seconds. split.
    + intros (t' & E & _ & H). injection E as <-.
      Z.to_euclidean_division_equations. lia.
    + intros H. exists t. repeat split; [assumption|].
      Z.to_euclidean_division_equations. lia.
  - intros ms' d Hle. rewrite !isAppDisconnected_true.
    intros (t & E & Ht & H). exists t. repeat split; try assumption.
    unfold seconds in *. Z.to_euclidean_division_equations. lia.
Qed.

(** ** The further properties at concrete inputs *)

Lemma only_connect_and_messages_dispatch_witness :
  Forall (fun occ : Env * Event => silent_event (snd occ) = true)
         [(at_ms 1700000000000, Mount);
          (at_ms 1700000000300, Errored);
          (at_ms 1700000001300, TimerElapsed 1);
          (at_ms 1700000001600, Closed);
          (at_ms 1700000002000, Unmount)] /\
  dispatched (effects (run titleCase_spec
                           [(at_ms 1700000000000, Mount);
                            (at_ms 1700000000300, Errored);
                            (at_ms 1700000001300, TimerElapsed 1);
                            (at_ms 1700000001600, Closed);
                            (at_ms 1700000002000, Unmount)] constructed))
  = dispatched (effects constructed).
Proof.
  assert (H : Forall (fun occ : Env * Event => silent_event (snd occ) = true)
                [(at_ms 1700000000000, Mount);
                 (at_ms 1700000000300, Errored);
                 (at_ms 1700000001300, TimerElapsed 1);
                 (at_ms 1700000001600, Closed);
                 (at_ms 1700000002000, Unmount)])
    by (repeat constructor).
  split; [exact H|].
  exact (only_connect_and_messages_dispatch titleCase_spec _ constructed H).
Defined.

Lemma retries_die_out_while_unloading_witness :
  Forall while_unloading
         [(leaving 1700000000400, Closed);
          (leaving 1700000001300, TimerElapsed 1);
          (leaving 1700000001600, Errored)] /\
  delays (effects (run titleCase_spec
                       [(leaving 1700000000400, Closed);
                        (leaving 1700000001300, TimerElapsed 1);
                        (leaving 1700000001600, Errored)] retrying))
  = delays (effects retrying) /\
  (starts (effects (run titleCase_spec
                        [(leaving 1700000000400, Closed);
                         (leaving 1700000001300, TimerElapsed 1);
                         (leaving 1700000001600, Errored)] retrying))
   + List.length (timers (run titleCase_spec
                              [(leaving 1700000000400, Closed);
                               (leaving 1700000001300, TimerElapsed 1);
                               (leaving 1700000001600, Errored)] retrying))
   <= starts (effects retrying) + List.length (timers retrying))%nat.
Proof.
  assert (H : Forall while_unloading
                [(leaving 1700000000400, Closed);
                 (leaving 1700000001300, TimerElapsed 1);
                 (leaving 1700000001600, Errored)])
    by (repeat constructor; discriminate).
  split; [exact H|].
  exact (retries_die_out_while_unloading titleCase_spec _ retrying H).
Defined.

Lemma backoff_after_reconnection_witness :
  connection retrying = Some "/signalr/messages"%string /\
  retryInterval
    (fold_left (failed_attempt titleCase_spec no_flags "")
               [(true, 1700000060000); (false, 1700000066000)]
               (state_of (onConnected (at_ms 1700000000900) retrying)))
  = Z.min (Z.of_nat 2 + 5) 10 /\
  delays
    (effects
       (fold_left (failed_attempt titleCase_spec no_flags "")
                  [(true, 1700000060000); (false, 1700000066000)]
                  (state_of (onConnected (at_ms 1700000000900) retrying))))
  = delays (effects retrying) ++ map backoff (seq 4 2).
Proof.
  split; [reflexivity|].
  exact (backoff_after_reconnection titleCase_spec no_flags ""
           (at_ms 1700000000900) retrying "/signalr/messages"
           [(true, 1700000060000); (false, 1700000066000)] eq_refl).
Defined.

Lemma second_slash_finds_no_handler_witness :
  destructure (hub_message (JStr "wanted/missing/extra") JNull)
    = Some (JStr "wanted/missing/extra", JNull) /\
  titleCase_spec (JStr "wanted/missing/extra")
    = Some (String.append "Wanted" (String "/" "missing/extra")) /\
  has_slash "Wanted" = false /\
  has_slash "missing/extra" = true /\
  handleMessage titleCase_spec (at_ms 1700000000000)
                (hub_message (JStr "wanted/missing/extra") JNull) constructed
  = Normal tt (add_effect (no_handler (JStr "wanted/missing/extra")) constructed).
Proof.
  repeat (split; [reflexivity|]).
  exact (second_slash_finds_no_handler titleCase_spec (at_ms 1700000000000)
           (hub_message (JStr "wanted/missing/extra") JNull)
           (JStr "wanted/missing/extra") JNull "Wanted" "missing/extra"
           constructed eq_refl eq_refl eq_refl eq_refl).
Defined.

Lemma update_only_handlers_witness :
  update_section HandleAlbum = Some "albums"%string /\
  getprop "action" overriding_update = Some (JStr "updated") /\
  getprop "resource" overriding_update = Some overriding_resource /\
  invoke titleCase_spec HandleAlbum (at_ms 1700000000000) overriding_update constructed
  = Normal tt (add_effect
                 (Dispatch (UpdateItem [("section", JStr "albums");
                                        ("updateOnly", JBool true)]%string
                                       overriding_resource))
                 constructed) /\
  getprop "section"
          (payload (UpdateItem [("section", JStr "albums");
                                ("updateOnly", JBool true)]%string overriding_resource))
  = Some (JStr "history") /\
  getprop "updateOnly"
          (payload (UpdateItem [("section", JStr "albums");
                                ("updateOnly", JBool true)]%string overriding_resource))
  = Some (JBool false) /\
  getprop "updateOnly"
          (payload (UpdateItem [("section", JStr "albums");
                                ("updateOnly", JBool true)]%string
                               (JObj [("id", JNum 7); ("status", JStr "failed")]%string)))
  = Some (JBool true) /\
  invoke titleCase_spec HandleAlbum (at_ms 1700000000000) deleted_artist constructed
  = Normal tt constructed.
Proof.
  split; [reflexivity|]. split; [reflexivity|]. split; [reflexivity|].
  destruct (update_only_handlers titleCase_spec HandleAlbum "albums"
              (at_ms 1700000000000) overriding_update (JStr "updated")
              overriding_resource constructed eq_refl eq_refl eq_refl)
    as [Hupdated _].
  destruct (Hupdated eq_refl) as [Hrun Hreads].
  split; [exact Hrun|].
  split; [exact (Hreads "section"%string)|].
  split; [exact (Hreads "updateOnly"%string)|].
  split; [reflexivity|].
  apply (update_only_handlers titleCase_spec HandleAlbum "albums"
           (at_ms 1700000000000) deleted_artist (JStr "deleted")
           (JObj [("id", JNum 3)]%string) constructed eq_refl eq_refl eq_refl).
  discriminate.
Defined.

Lemma artist_handler_witness :
  getprop "action" overriding_update = Some (JStr "updated") /\
  getprop "resource" overriding_update = Some overriding_resource /\
  invoke titleCase_spec HandleArtist (at_ms 1700000000000) overriding_update constructed
  = Normal tt (add_effect
                 (Dispatch (UpdateItem [("section", JStr "artist")]%string
                                       overriding_resource))
                 constructed) /\
  getprop "section"
          (payload (UpdateItem [("section", JStr "artist")]%string overriding_resource))
  = Some (JStr "history") /\
  getprop "updateOnly"
          (payload (UpdateItem [("section", JStr "artist")]%string overriding_resource))
  = Some (JBool false) /\
  invoke titleCase_spec HandleArtist (at_ms 1700000000000) deleted_artist constructed
  = Normal tt (add_effect (Dispatch (RemoveItem "artist" (JNum 3))) constructed).
Proof.
  split; [reflexivity|]. split; [reflexivity|].
  destruct (artist_handler titleCase_spec (at_ms 1700000000000) overriding_update
              (JStr "updated") overriding_resource constructed eq_refl eq_refl)
    as [Hupdated _].
  destruct (Hupdated eq_refl) as [Hrun Hreads].
  split; [exact Hrun|].
  split; [exact (Hreads "section"%string)|].
  split; [exact (Hreads "updateOnly"%string)|].
  apply (artist_handler titleCase_spec (at_ms 1700000000000) deleted_artist
           (JStr "deleted") (JObj [("id", JNum 3)]%string) constructed
           eq_refl eq_refl).
  reflexivity.
Defined.

Lemma trackfile_handler_witness :
  getprop "action" failed_command = Some (JStr "updated") /\
  getprop "resource" failed_command
    = Some (JObj [("id", JNum 7); ("status", JStr "failed")]%string) /\
  invoke titleCase_spec HandleTrackfile (at_ms 1700000000000) failed_command constructed
  = Normal tt
      (add_effect (RepopulatePage (Some "trackFileUpdated"%string))
         (add_effect
            (Dispatch (UpdateItem
                         [("section", JStr "trackFiles")]%string
                         (JObj [("id", JNum 7); ("status", JStr "failed")]%string)))
            constructed)).
Proof.
  repeat (split; [reflexivity|]).
  apply (trackfile_handler titleCase_spec (at_ms 1700000000000) failed_command
           (JStr "updated")
           (JObj [("id", JNum 7); ("status", JStr "failed")]%string) constructed
           eq_refl eq_refl).
  reflexivity.
Defined.

Lemma version_handlers_witness :
  getprop "body" (hub_message (JStr "version") version_body) = Some version_body /\
  invoke titleCase_spec HandleVersion (at_ms 1700000000000) version_body constructed
  = Normal tt (add_effect (Dispatch (SetVersion JUndefined)) constructed) /\
  onReceiveVersion (hub_message (JStr "version") version_body) constructed
  = Normal tt (add_effect (Dispatch (SetVersion (JStr "0.8.1"))) constructed).
Proof.
  split; [reflexivity|].
  exact (version_handlers titleCase_spec (at_ms 1700000000000)
           (hub_message (JStr "version") version_body) version_body
           constructed eq_refl).
Defined.

Lemma timer_after_unmount_witness :
  connection retrying = Some "/signalr/messages"%string /\
  pending 1 retrying = true /\
  elapse 1 (state_of (componentWillUnmount retrying))
  = Throw (state_of (elapse 1 (state_of (componentWillUnmount retrying)))) /\
  retryInterval (state_of (elapse 1 (state_of (componentWillUnmount retrying))))
  = retryInterval retrying /\
  starts (effects (state_of (elapse 1 (state_of (componentWillUnmount retrying)))))
  = starts (effects retrying).
Proof.
  split; [reflexivity|]. split; [reflexivity|].
  destruct (timer_after_unmount retrying "/signalr/messages" 1 eq_refl eq_refl)
    as (_ & _ & _ & Hthrow & Hint & Heff & _).
  split; [exact Hthrow|]. split; [exact Hint|].
  rewrite Heff, starts_app. simpl. lia.
Defined.

Lemma message_named_message_reenters_witness :
  titleCase_spec (JStr "message") = Some "Message"%string /\
  handleMessage titleCase_spec (at_ms 1700000000000)
                (hub_message (JStr "message") (hub_message (JStr "health") JNull))
                constructed
  = handleMessage titleCase_spec (at_ms 1700000000000)
                  (hub_message (JStr "health") JNull) constructed.
Proof.
  split; [reflexivity|].
  exact (message_named_message_reenters titleCase_spec (at_ms 1700000000000)
           (hub_message (JStr "health") JNull) constructed eq_refl).
Defined.

Lemma command_without_resource_witness :
  getprop "action" (JObj [("action", JStr "updated")]%string) = Some (JStr "updated") /\
  JStr "updated" <> JStr "sync" /\
  getprop "resource" (JObj [("action", JStr "updated")]%string) = Some JUndefined /\
  nullish JUndefined = true /\
  handleCommand (JObj [("action", JStr "updated")]%string) constructed
  = Throw constructed.
Proof.
  split; [reflexivity|]. split; [discriminate|].
  split; [reflexivity|]. split; [reflexivity|].
  apply (command_without_resource (JObj [("action", JStr "updated")]%string)
           (JStr "updated") JUndefined constructed eq_refl);
    [discriminate|reflexivity|reflexivity].
Defined.

(** C8 as stated fails: the component does retry during unload.  A retry
    timer that was pending when the unload began still elapses, starts a
    connection attempt and raises the interval: the timer callback does not
    look at [window.Lidarr.unloading]. *)
Lemma pending_timer_fires_while_unloading :
  let st := step titleCase_spec retrying (leaving 1700000001300, TimerElapsed 1) in
  unloading (leaving 1700000001300) = true /\
  pending 1 retrying = true /\
  starts (effects retrying) = 1%nat /\
  starts (effects st) = 2%nat /\
  retryInterval retrying = 1 /\
  retryInterval st = 2.
Proof. now vm_compute. Qed.

(** C9 as stated fails: with a failure recorded at clock 1000000 ms, at
    clock 1180999 ms more than 180 seconds have elapsed (180.999), yet the
    app does not count as disconnected: the clock is compared in whole
    seconds, and 1180 - 1000 is not more than 180.  One millisecond later it
    does. *)
Lemma whole_seconds_delay_the_disconnected_flag :
  let st := run titleCase_spec
                [(at_ms 1000000, Mount); (at_ms 1000000, Closed)] constructed in
  disconnectedTime st = Some 1000 /\
  1180999 - 1000000 = 180999 /\
  (180999 >? 180 * 1000) = true /\
  isAppDisconnected 1180999 (disconnectedTime st) = false /\
  isAppDisconnected 1181000 (disconnectedTime st) = true.
Proof. now vm_compute. Qed.
